(** * Siamese network notebook (C3_W4_1siamese.ipynb): model and properties

    The notebook defines four small functions of its own
    ([normalize], [normalize2], [cosine_similarity], [show_layers]) and two
    model assemblies (a Trax [Serial]/[Parallel] pair and the PyTorch modules
    [Sub] and [Siamese]).  Everything else (embedding lookup, the LSTM, the
    mean over an axis) is library code and enters this development as an
    interface, with one instance that writes out the structure of the
    [torch.nn] layers: the lookup, the loop of the recurrence and the axis it
    runs along, and the mean.

    Arrays are nested lists, scalars are an interface with two instances:
    exact real numbers, and IEEE-754 binary floating point (binary32 is the
    format both frameworks compute in by default). *)

From Stdlib Require Import String Ascii.
From Stdlib Require Import List ZArith Bool Lia.
From Stdlib Require Import QArith.
From Stdlib Require Import Reals Lra.
From Stdlib Require Import Floats.SpecFloat.
From Stdlib Require Import DecimalString.
Import ListNotations.
Close Scope Q_scope.

Set Implicit Arguments.

(* ================================================================== *)
(** * Part I: definitions *)
(* ================================================================== *)

(** ** Scalars *)

(** The arithmetic the array libraries provide on array elements. *)
Class Scalar (A : Type) : Type := {
  s_zero : A;
  s_one  : A;
  s_add  : A -> A -> A;
  s_mul  : A -> A -> A;
  s_div  : A -> A -> A;
  s_sqrt : A -> A
}.

(** Exact arithmetic. *)
#[export] Instance R_scalar : Scalar R := {|
  s_zero := 0%R;
  s_one  := 1%R;
  s_add  := Rplus;
  s_mul  := Rmult;
  s_div  := Rdiv;
  s_sqrt := sqrt
|}.

(** IEEE-754 binary floating point with [prec] bits of precision and
    exponent bound [emax], every operation correctly rounded to nearest even,
    with gradual underflow.  (A backend may depart from this in the last bit
    of a division or square root, and may flush subnormal numbers to zero;
    the float32 facts below say where that matters.) *)
Definition ieee_scalar (prec emax : Z) : Scalar spec_float := {|
  s_zero := S754_zero false;
  s_one  := SFone prec emax;
  s_add  := SFadd prec emax;
  s_mul  := SFmul prec emax;
  s_div  := SFdiv prec emax;
  s_sqrt := SFsqrt prec emax
|}.

(** float32, the dtype of jax arrays and of torch tensors by default. *)
Definition float32 : Type := spec_float.
#[export] Instance binary32 : Scalar float32 := ieee_scalar 24 128.

(** float64. *)
Definition binary64 : Scalar spec_float := ieee_scalar 53 1024.

(** The float32 value of an integer literal. *)
Definition f32 (z : Z) : float32 := binary_normalize 24 128 z 0 false.

(** A float32 zero, of either sign. *)
Definition is_zero (f : float32) : Prop :=
  f = S754_zero false \/ f = S754_zero true.

(** The rational number a finite float stands for (0 for the others). *)
Definition float_to_Q (f : spec_float) : Q :=
  match f with
  | S754_finite s m e =>
      ((if s then - inject_Z (Zpos m) else inject_Z (Zpos m)) * Qpower 2 e)%Q
  | _ => 0%Q
  end.

(** The sum of the squares of the entries, without rounding. *)
Definition exact_sum_of_squares (row : list spec_float) : Q :=
  fold_left Qplus (map (fun a => (float_to_Q a * float_to_Q a)%Q) row) 0%Q.

(** ** Tensors *)

(** [tensor A k] is an array of rank [k+1]: rank 1 is a list of scalars, and
    each further axis adds a level of nesting.  The last axis (axis -1) is
    the innermost list. *)
Fixpoint tensor (A : Type) (k : nat) : Type :=
  match k with
  | O => list A
  | S k' => list (tensor A k')
  end.

(** Apply [f] to every slice along the last axis. *)
Fixpoint tmap_last {A B : Type} (f : list A -> list B) (k : nat)
  : tensor A k -> tensor B k :=
  match k as n return tensor A n -> tensor B n with
  | O => f
  | S k' => map (tmap_last f k')
  end.

(** One axis of numpy-style broadcasting: the two sizes agree, or one of them
    is 1 and that operand is repeated. *)
Definition broadcast {X Y Z : Type} (f : X -> Y -> Z)
  (xs : list X) (ys : list Y) : list Z :=
  match xs, ys with
  | [x], _ => map (f x) ys
  | _, [y] => map (fun x => f x y) xs
  | _, _ => map (fun p => f (fst p) (snd p)) (combine xs ys)
  end.

(** A binary elementwise operation on two arrays of the same rank,
    broadcasting on every axis. *)
Fixpoint tzip {A : Type} (f : A -> A -> A) (k : nat)
  : tensor A k -> tensor A k -> tensor A k :=
  match k as n return tensor A n -> tensor A n -> tensor A n with
  | O => broadcast f
  | S k' => broadcast (tzip f k')
  end.

(** [x * y] and [x / y] on arrays. *)
Definition tensor_mul {A} `{Scalar A} {k} (x y : tensor A k) : tensor A k :=
  tzip s_mul k x y.

Definition tensor_div {A} `{Scalar A} {k} (x y : tensor A k) : tensor A k :=
  tzip s_div k x y.

(** Sum of a slice, accumulated from zero in index order. *)
Definition sum_list {A} `{Scalar A} (row : list A) : A :=
  fold_left s_add row s_zero.

(** [sum(x, axis=-1, keepdims=True)]: the last axis is kept, with size 1. *)
Definition sum_last_keepdims {A} `{Scalar A} {k} (x : tensor A k) : tensor A k :=
  tmap_last (fun row => [sum_list row]) k x.

(** Elementwise square root. *)
Definition tensor_sqrt {A} `{Scalar A} {k} (x : tensor A k) : tensor A k :=
  tmap_last (map s_sqrt) k x.

(** The two array libraries of the notebook.  In both, [sum] stands for the
    call the notebook makes, [sum(x, axis=-1, keepdims=True)].  The order in
    which a library adds the entries of a slice is its own business; here it
    is index order, and the floating-point facts below use slices of at most
    two entries, for which every order gives the same result. *)
Module np.
Definition sqrt {A} `{Scalar A} {k} (x : tensor A k) := tensor_sqrt x.
Definition sum {A} `{Scalar A} {k} (x : tensor A k) := sum_last_keepdims x.
End np.

Module torch.
Definition sqrt {A} `{Scalar A} {k} (x : tensor A k) := tensor_sqrt x.
Definition sum {A} `{Scalar A} {k} (x : tensor A k) := sum_last_keepdims x.
End torch.

(** ** L2 normalization *)

(** [def normalize(x): return x / np.sqrt(np.sum(x * x, axis=-1, keepdims=True))] *)
Definition normalize {A} `{Scalar A} {k} (x : tensor A k) : tensor A k :=
  tensor_div x (np.sqrt (np.sum (tensor_mul x x))).

(** [def normalize2(x): return x / torch.sqrt(torch.sum(x * x, axis=-1, keepdims=True))] *)
Definition normalize2 {A} `{Scalar A} {k} (x : tensor A k) : tensor A k :=
  tensor_div x (torch.sqrt (torch.sum (tensor_mul x x))).

(** The mathematical description: the sum of the squares of a slice, its L2
    norm, and the slice divided entry by entry by that norm. *)
Definition sum_of_squares {A} `{Scalar A} (row : list A) : A :=
  sum_list (map (fun a => s_mul a a) row).

Definition l2norm {A} `{Scalar A} (row : list A) : A :=
  s_sqrt (sum_of_squares row).

Definition divide_by_norm {A} `{Scalar A} (row : list A) : list A :=
  map (fun a => s_div a (l2norm row)) row.

Definition normalize_spec {A} `{Scalar A} {k} (x : tensor A k) : tensor A k :=
  tmap_last divide_by_norm k x.

(** The slices along the last axis, in row-major order. *)
Fixpoint rows {A : Type} (k : nat) : tensor A k -> list (list A) :=
  match k as n return tensor A n -> list (list A) with
  | O => fun x => [x]
  | S k' => fun x => flat_map (rows k') x
  end.

(** Two arrays have the same shape. *)
Fixpoint same_shape {A B : Type} (k : nat) : tensor A k -> tensor B k -> Prop :=
  match k as n return tensor A n -> tensor B n -> Prop with
  | O => fun x y => length x = length y
  | S k' => fun x y => Forall2 (same_shape k') x y
  end.

(** ** Float32 arrays: signs and special values *)

(** [-x], entry by entry. *)
Definition tensor_neg {k} (x : tensor float32 k) : tensor float32 k :=
  tmap_last (map SFopp) k x.

(** The sign bit of a float, when it has one. *)
Definition sign_bit (f : float32) : option bool :=
  match f with
  | S754_zero s => Some s
  | S754_infinity s => Some s
  | S754_finite s _ _ => Some s
  | S754_nan => None
  end.

(** NaN, or a float whose sign bit is clear. *)
Definition not_negative (f : float32) : Prop :=
  f = S754_nan \/ sign_bit f = Some false.

(** The quotient of a float by +infinity: a zero of the same sign, except
    that infinity over infinity is NaN. *)
Definition over_infinity (a : float32) : float32 :=
  match a with
  | S754_zero s => S754_zero s
  | S754_finite s _ _ => S754_zero s
  | S754_infinity _ => S754_nan
  | S754_nan => S754_nan
  end.

(** A zero, or a normal float32 number: 24 significant bits and an exponent
    in range.  This leaves out the subnormal numbers, which some backends
    treat as zero. *)
Definition zero_or_normal (a : float32) : Prop :=
  match a with
  | S754_zero _ => True
  | S754_finite _ m e =>
      Zpos (digits2_pos m) = 24%Z /\ (-149 <= e <= 104)%Z
  | _ => False
  end.

(** The quotient of a float by +0: an infinity of the same sign, except that
    zero over zero is NaN. *)
Definition over_zero (a : float32) : float32 :=
  match a with
  | S754_finite s _ _ => S754_infinity s
  | S754_infinity s => S754_infinity s
  | S754_zero _ => S754_nan
  | S754_nan => S754_nan
  end.

(** ** Matrices and cosine similarity *)

(** Dot product of two rows of the same length, accumulated in index
    order.  (For rows of different lengths the library raises.) *)
Definition dot {A} `{Scalar A} (u v : list A) : A :=
  sum_list (map (fun p => s_mul (fst p) (snd p)) (combine u v)).

Definition ncols {A} (x : tensor A 1) : nat :=
  match x with
  | [] => 0
  | r :: _ => length r
  end.

(** [x.T]: entry [(j, i)] of the result is entry [(i, j)] of [x].  Nested
    lists cannot tell a matrix with rows of length 0 from an empty one, so
    this is the transpose for rows of positive length. *)
Definition transpose {A} `{Scalar A} (x : tensor A 1) : tensor A 1 :=
  map (fun j => map (fun r => nth j r s_zero) x) (seq 0 (ncols x)).

(** [a @ b]: entry [(i, j)] is row [i] of [a] times column [j] of [b]. *)
Definition matmul {A} `{Scalar A} (a b : tensor A 1) : tensor A 1 :=
  map (fun r => map (fun c => dot r c) (transpose b)) a.

(** [def cosine_similarity(x1,x2): return x1 @ x2.T] *)
Definition cosine_similarity {A} `{Scalar A} (x1 x2 : tensor A 1) : tensor A 1 :=
  matmul x1 (transpose x2).

(** [x] has [m] rows of [d] entries each. *)
Definition is_matrix {A} (m d : nat) (x : tensor A 1) : Prop :=
  length x = m /\ Forall (fun r => length r = d) x.

(** Entry [(i, j)] of a matrix. *)
Definition entry {A} `{Scalar A} (x : tensor A 1) (i j : nat) : A :=
  nth j (nth i x []) s_zero.

(** The cosine of the angle between two rows, as mathematics defines it. *)
Definition cosine (u v : list R) : R :=
  (dot u v / (l2norm u * l2norm v))%R.

(** ** The PyTorch version *)

(** What the notebook takes from [torch.nn]: the type of integer token
    batches, and the forward functions of [nn.Embedding], [nn.LSTM] and
    [Tensor.mean]. *)
Class TorchLibrary (A : Type) : Type := {
  tokens : Type;
  lstm_state : Type;
  Embedding_forward : tensor A 1 -> tokens -> tensor A 2;
  LSTM_forward : tensor A 1 -> tensor A 1 -> tensor A 0 -> tensor A 0 ->
                 tensor A 2 -> tensor A 2 * lstm_state;
  tensor_mean : Z -> tensor A 2 -> tensor A 1
}.

Module Pytorch.

(** [nn.Embedding]: one learnable table. *)
Record Embedding (A : Type) : Type := {
  weight : tensor A 1
}.

(** [nn.LSTM] with one layer: four learnable arrays. *)
Record LSTM (A : Type) : Type := {
  weight_ih_l0 : tensor A 1;
  weight_hh_l0 : tensor A 1;
  bias_ih_l0 : tensor A 0;
  bias_hh_l0 : tensor A 0
}.

(** [class Sub(nn.Module)] *)
Record Sub (A : Type) : Type := {
  Sub_vocab_size : Z;
  Sub_model_dimension : Z;
  embed : Embedding A;
  lstm : LSTM A
}.

(** [class Siamese(nn.Module)]: its only submodule is [sub]. *)
Record Siamese (A : Type) : Type := {
  vocab_size : Z;
  model_dimension : Z;
  sub : Sub A
}.

(** [Sub.__init__]; the freshly initialised weights are arguments. *)
Definition Sub_init {A} (vocab_size model_dimension : Z)
  (e : Embedding A) (l : LSTM A) : Sub A :=
  {| Sub_vocab_size := vocab_size;
     Sub_model_dimension := model_dimension;
     embed := e;
     lstm := l |}.

(** [Siamese.__init__]: one call of the [Sub] constructor. *)
Definition Siamese_init {A} (vocab_size model_dimension : Z)
  (e : Embedding A) (l : LSTM A) : Siamese A :=
  {| vocab_size := vocab_size;
     model_dimension := model_dimension;
     sub := Sub_init vocab_size model_dimension e l |}.

(** Calling the two library modules. *)
Definition call_embed {A} `{TorchLibrary A} (e : Embedding A) (x : tokens)
  : tensor A 2 :=
  Embedding_forward (weight e) x.

Definition call_lstm {A} `{TorchLibrary A} (l : LSTM A) (x : tensor A 2)
  : tensor A 2 * lstm_state :=
  LSTM_forward (weight_ih_l0 l) (weight_hh_l0 l) (bias_ih_l0 l) (bias_hh_l0 l) x.

(** [Sub.forward] *)
Definition Sub_forward {A} `{Scalar A} `{TorchLibrary A}
  (self : Sub A) (x : tokens) : tensor A 1 :=
  let x := call_embed (embed self) x in
  let '(x, hidden) := call_lstm (lstm self) x in
  let x := tensor_mean 1 x in
  let x := normalize2 x in
  x.

(** [Siamese.forward] *)
Definition Siamese_forward {A} `{Scalar A} `{TorchLibrary A}
  (self : Siamese A) (x1 x2 : tokens) : tensor A 1 :=
  let x1 := Sub_forward (sub self) x1 in
  let x2 := Sub_forward (sub self) x2 in
  cosine_similarity x1 x2.

(** A learnable array of any rank. *)
Inductive parameter (A : Type) : Type :=
| Param (k : nat) (data : tensor A k).

Arguments Param {A} k data.

(** [named_parameters()]: the parameters of a module and of its submodules,
    each submodule's names prefixed with the attribute it is stored under. *)
Definition with_prefix {X} (p : string) (l : list (string * X))
  : list (string * X) :=
  map (fun np => ((p ++ "." ++ fst np)%string, snd np)) l.

Definition Embedding_named_parameters {A} (e : Embedding A)
  : list (string * parameter A) :=
  [("weight"%string, Param 1 (weight e))].

Definition LSTM_named_parameters {A} (l : LSTM A)
  : list (string * parameter A) :=
  [("weight_ih_l0"%string, Param 1 (weight_ih_l0 l));
   ("weight_hh_l0"%string, Param 1 (weight_hh_l0 l));
   ("bias_ih_l0"%string, Param 0 (bias_ih_l0 l));
   ("bias_hh_l0"%string, Param 0 (bias_hh_l0 l))].

Definition Sub_named_parameters {A} (s : Sub A)
  : list (string * parameter A) :=
  with_prefix "embed" (Embedding_named_parameters (embed s)) ++
  with_prefix "lstm" (LSTM_named_parameters (lstm s)).

Definition Siamese_named_parameters {A} (m : Siamese A)
  : list (string * parameter A) :=
  with_prefix "sub" (Sub_named_parameters (sub m)).

End Pytorch.

(** ** The [torch.nn] layers, as far as their structure goes *)

(** The conversion of a count to a scalar, which a mean divides by. *)
Class ScalarOfNat (A : Type) : Type := {
  s_of_nat : nat -> A
}.

#[export] Instance R_of_nat : ScalarOfNat R := {| s_of_nat := INR |}.

#[export] Instance float32_of_nat : ScalarOfNat float32 :=
  {| s_of_nat := fun n => f32 (Z.of_nat n) |}.

(** One step of the LSTM on one sequence: from the four weight arrays, the
    input vector of the step and the state [(h, c)] before it, the state
    after it.  The gate arithmetic is the library's. *)
Class LSTMKernel (A : Type) : Type := {
  lstm_step : tensor A 1 -> tensor A 1 -> tensor A 0 -> tensor A 0 ->
              list A -> list A * list A -> list A * list A
}.

(** [nn.Embedding]: each token is replaced by the row of the table it
    indexes.  (The library raises for a token outside the table; here the
    row is empty.) *)
Definition embedding_lookup {A} (weight : tensor A 1) (x : list (list nat))
  : tensor A 2 :=
  map (map (fun tok => nth tok weight [])) x.

(** The state an LSTM starts from when none is given: zeros of the hidden
    size, which is the number of columns of [weight_hh_l0]. *)
Definition lstm_zero_state {A} `{Scalar A} (weight_hh : tensor A 1)
  : list A * list A :=
  (repeat s_zero (ncols weight_hh), repeat s_zero (ncols weight_hh)).

(** The loop of a recurrent layer over the FIRST axis of its input: the
    states of all the entries of the second axis are advanced together, one
    element of the first axis at a time, and the states after each element
    are recorded. *)
Fixpoint lstm_scan {X St : Type} (step : X -> St -> St)
  (xs : list (list X)) (states : list St) : list (list St) :=
  match xs with
  | [] => []
  | x_t :: rest =>
      let states' := map (fun p => step (fst p) (snd p)) (combine x_t states) in
      states' :: lstm_scan step rest states'
  end.

(** [nn.LSTM(input_size, hidden_size)] as the notebook constructs it, that
    is with [batch_first] left at its default [False]: axis 0 of the input
    is the time axis of the recurrence and axis 1 is its batch axis. *)
Definition lstm_along_axis_0 {X St : Type} (step : X -> St -> St) (init : St)
  (x : list (list X)) : list (list St) :=
  lstm_scan step x (repeat init (ncols x)).

Definition nn_LSTM_forward {A} `{Scalar A} `{LSTMKernel A}
  (w_ih w_hh : tensor A 1) (b_ih b_hh : tensor A 0) (x : tensor A 2)
  : tensor A 2 * list (list A * list A) :=
  let states :=
    lstm_along_axis_0 (lstm_step w_ih w_hh b_ih b_hh) (lstm_zero_state w_hh) x in
  (map (map fst) states, last states []).

(** The recurrence the words "axis 1 is the sequence/time axis" describe:
    each element of axis 0 is a sequence of its own, run from the initial
    state along axis 1. *)
Fixpoint scan_states {X St : Type} (step : X -> St -> St) (xs : list X) (st : St)
  : list St :=
  match xs with
  | [] => []
  | x :: rest => let st' := step x st in st' :: scan_states step rest st'
  end.

Definition lstm_along_axis_1 {X St : Type} (step : X -> St -> St) (init : St)
  (x : list (list X)) : list (list St) :=
  map (fun sample => scan_states step sample init) x.

(** The mean of a list of scalars, and of a list of vectors entry by entry. *)
Definition mean_list {A} `{Scalar A} `{ScalarOfNat A} (l : list A) : A :=
  s_div (sum_list l) (s_of_nat (length l)).

Definition mean_vectors {A} `{Scalar A} `{ScalarOfNat A} (vs : list (list A))
  : list A :=
  map (fun f => mean_list (map (fun v => nth f v s_zero) vs)) (seq 0 (ncols vs)).

(** [x.mean(axis)] on an array of rank 3, for the three axes it has. *)
Definition Tensor_mean {A} `{Scalar A} `{ScalarOfNat A} (axis : Z) (x : tensor A 2)
  : tensor A 1 :=
  match axis with
  | 0%Z => map (fun t => mean_vectors (map (fun sample => nth t sample []) x))
               (seq 0 (ncols x))
  | 1%Z => map mean_vectors x
  | 2%Z => map (map mean_list) x
  | _ => []
  end.

(** The library with these layers; only the gate arithmetic of the LSTM step
    stays a parameter. *)
Definition torch_nn (A : Type) `{Scalar A} `{ScalarOfNat A} `{LSTMKernel A}
  : TorchLibrary A := {|
  tokens := list (list nat);
  lstm_state := list (list A * list A);
  Embedding_forward := embedding_lookup;
  LSTM_forward := nn_LSTM_forward;
  tensor_mean := Tensor_mean
|}.

Arguments torch_nn A {_ _ _}.

(** The gate arithmetic of an LSTM step as the library documents it, in
    exact arithmetic: the four gates are read off [W_ih x + b_ih + W_hh h +
    b_hh] in the order input, forget, cell, output; the new cell state is
    [f * c + i * g] and the new hidden state [o * tanh c']. *)
Definition sigmoid (x : R) : R := (1 / (1 + exp (- x)))%R.

Definition affine (W : tensor R 1) (b x : list R) : list R :=
  map (fun p => (dot (fst p) x + snd p)%R) (combine W b).

Definition gate (k H : nat) (z : list R) : list R :=
  firstn H (skipn (k * H) z).

Definition zip_with {X Y Z : Type} (f : X -> Y -> Z) (a : list X) (b : list Y)
  : list Z :=
  map (fun p => f (fst p) (snd p)) (combine a b).

Definition lstm_step_exact (w_ih w_hh : tensor R 1) (b_ih b_hh : tensor R 0)
  (x : list R) (st : list R * list R) : list R * list R :=
  let (h, c) := st in
  let H := length h in
  let z := zip_with Rplus (affine w_ih b_ih x) (affine w_hh b_hh h) in
  let i := map sigmoid (gate 0 H z) in
  let f := map sigmoid (gate 1 H z) in
  let g := map tanh (gate 2 H z) in
  let o := map sigmoid (gate 3 H z) in
  let c' := zip_with Rplus (zip_with Rmult f c) (zip_with Rmult i g) in
  (zip_with Rmult o (map tanh c'), c').

Definition exact_kernel : LSTMKernel R := {| lstm_step := lstm_step_exact |}.

(** ** The Trax version *)

(** What the notebook takes from [trax.layers]: the type of integer token
    batches, the weights a layer object holds, and what the three library
    layers compute. *)
Class TraxLibrary (A : Type) : Type := {
  token_batch : Type;
  layer_weights : Type;
  Embedding_apply : layer_weights -> Z -> Z -> token_batch -> tensor A 2;
  LSTM_apply : layer_weights -> Z -> tensor A 2 -> tensor A 2;
  Mean_apply : Z -> tensor A 2 -> tensor A 1
}.

Module Trax.

(** Layer objects live in a store and are referred to by their address, so
    that passing one object twice is visible. *)
Definition ref : Type := nat.

Inductive layer (A : Type) : Type :=
| Embedding (vocab_size d_feature : Z)
| LSTM (n_units : Z)
| Mean (axis : Z)
| Fn (name : string) (f : tensor A 1 -> tensor A 1)
| Serial (sublayers : list ref)
| Parallel (sublayers : list ref).

Arguments Embedding {A} vocab_size d_feature.
Arguments LSTM {A} n_units.
Arguments Mean {A} axis.
Arguments Fn {A} name f.
Arguments Serial {A} sublayers.
Arguments Parallel {A} sublayers.

Definition heap (A : Type) : Type := list (layer A).

(** The [sublayers] attribute of the objects the notebook lists, the
    [Serial] and the [Parallel]; the other layers are taken as units here
    (the library builds some of them, such as its LSTM, from sublayers of
    their own). *)
Definition sublayers {A} (l : layer A) : list ref :=
  match l with
  | Serial subs => subs
  | Parallel subs => subs
  | _ => []
  end.

(** Construction of objects: a state monad over the store. *)
Definition M (A X : Type) : Type := heap A -> X * heap A.

Definition ret {A X} (x : X) : M A X := fun h => (x, h).

Definition bind {A X Y} (c : M A X) (k : X -> M A Y) : M A Y :=
  fun h => let (x, h') := c h in k x h'.

Notation "x <- c ;; k" := (bind c (fun x => k))
  (at level 61, c at next level, right associativity).

(** A constructor call allocates a fresh object. *)
Definition new {A} (l : layer A) : M A ref :=
  fun h => (length h, h ++ [l]).

Definition vocab_size : Z := 500.
Definition model_dimension : Z := 128.

(** The model cell: [LSTM = tl.Serial(...)], [Siamese = tl.Parallel(LSTM, LSTM)].
    The result is the pair of the two variables. *)
Definition build {A} `{Scalar A} : M A (ref * ref) :=
  e <- new (Embedding vocab_size model_dimension) ;;
  l <- new (LSTM model_dimension) ;;
  m <- new (Mean 1) ;;
  f <- new (Fn "Normalize" (fun x => normalize x)) ;;
  LSTM <- new (Serial [e; l; m; f]) ;;
  Siamese <- new (Parallel [LSTM; LSTM]) ;;
  ret (LSTM, Siamese).

(** The objects that cell allocates when the store already holds [n]. *)
Definition built_objects {A} `{Scalar A} (n : nat) : list (layer A) :=
  [Embedding vocab_size model_dimension;
   LSTM model_dimension;
   Mean 1;
   Fn "Normalize" (fun x => normalize x);
   Serial [n; 1 + n; 2 + n; 3 + n];
   Parallel [4 + n; 4 + n]].

(** *** Printing *)

Definition nl : string := String (ascii_of_nat 10) EmptyString.

Definition str_nat (n : nat) : string := NilEmpty.string_of_uint (Nat.to_uint n).

Definition str_Z (z : Z) : string := NilEmpty.string_of_int (Z.to_int z).

Definition layer_name {A} (l : layer A) : string :=
  match l with
  | Embedding v d => "Embedding_" ++ str_Z v ++ "_" ++ str_Z d
  | LSTM n => "LSTM_" ++ str_Z n
  | Mean _ => "Mean"
  | Fn name _ => name
  | Serial _ => "Serial"
  | Parallel _ => "Parallel"
  end%string.

(** Every line of [s] moved two columns to the right. *)
Fixpoint indent_tail (s : string) : string :=
  match s with
  | EmptyString => EmptyString
  | String c s' =>
      if Ascii.eqb c (ascii_of_nat 10)
      then String c ("  " ++ indent_tail s')
      else String c (indent_tail s')
  end%string.

Definition indent_string (s : string) : string := ("  " ++ indent_tail s)%string.

(** [str(layer)] as the notebook's output shows it, for the layers it
    shows: the name, and for a combinator its sublayers, one per line,
    between brackets.  (The notebook never prints the [Parallel] object
    itself, whose name the library extends with its numbers of inputs and
    outputs.) *)
Fixpoint layer_str {A} (fuel : nat) (h : heap A) (r : ref) : string :=
  match fuel with
  | O => EmptyString
  | S fuel' =>
      match nth_error h r with
      | None => EmptyString
      | Some l =>
          match sublayers l with
          | [] => layer_name l
          | subs =>
              layer_name l ++ "[" ++ nl ++
              String.concat nl
                (map (fun r' => indent_string (layer_str fuel' h r')) subs) ++
              nl ++ "]"
          end
      end
  end%string.

(** The interpreter state: the object store and what has been written to
    standard output, one item per [print] call. *)
Record world (A : Type) : Type := {
  objects : heap A;
  stdout : list string
}.

(** A statement either completes or raises; both leave a state behind. *)
Definition IO (A X : Type) : Type := world A -> option X * world A.

Definition io_ret {A X} (x : X) : IO A X := fun w => (Some x, w).

Definition io_bind {A X Y} (c : IO A X) (k : X -> IO A Y) : IO A Y :=
  fun w =>
    match c w with
    | (Some x, w') => k x w'
    | (None, w') => (None, w')
    end.

Notation "x <~ c ;; k" := (io_bind c (fun x => k))
  (at level 61, c at next level, right associativity).
Notation "c ;;; k" := (io_bind c (fun _ => k))
  (at level 61, right associativity).

(** [print(s)] writes [s] and a newline. *)
Definition printed (s : string) : string := (s ++ nl)%string.

Definition print {A} (s : string) : IO A unit :=
  fun w => (Some tt, {| objects := objects w; stdout := stdout w ++ [printed s] |}).

(** [model.sublayers] *)
Definition get_sublayers {A} (model : ref) : IO A (list ref) :=
  fun w =>
    match nth_error (objects w) model with
    | Some l => (Some (sublayers l), w)
    | None => (None, w)
    end.

(** [xs[i]], raising when [i] is out of range. *)
Definition index {A X} (xs : list X) (i : nat) : IO A X :=
  fun w => (nth_error xs i, w).

(** [str(x)] of a layer object. *)
Definition str {A} (r : ref) : IO A string :=
  fun w => (Some (layer_str (S (length (objects w))) (objects w) r), w).

(** [for i in range(n): body(i)] *)
Fixpoint for_each {A} (idx : list nat) (body : nat -> IO A unit) : IO A unit :=
  match idx with
  | [] => io_ret tt
  | i :: idx' => body i ;;; for_each idx' body
  end.

Definition for_range {A} (n : nat) (body : nat -> IO A unit) : IO A unit :=
  for_each (seq 0 n) body.

(** The body of the loop of [show_layers]. *)
Definition show_layer {A} (model : ref) (layer_prefix : string) (i : nat) : IO A unit :=
  print "========" ;;;
  subs <~ get_sublayers model ;;
  sub_i <~ index subs i ;;
  s <~ str sub_i ;;
  print (layer_prefix ++ "_" ++ str_nat i ++ ": " ++ s ++ nl).

(** [def show_layers(model, layer_prefix)] *)
Definition show_layers {A} (model : ref) (layer_prefix : string) : IO A unit :=
  subs <~ get_sublayers model ;;
  print ("Total layers: " ++ str_nat (length subs) ++ nl) ;;;
  subs <~ get_sublayers model ;;
  for_range (length subs) (show_layer model layer_prefix).

(** The rest of that cell. *)
Definition show_cell {A} (LSTM Siamese : ref) : IO A unit :=
  print ("Siamese model:" ++ nl) ;;;
  show_layers Siamese "Parallel.sublayers" ;;;
  print ("Detail of LSTM models:" ++ nl) ;;;
  show_layers LSTM "Serial.sublayers".

(** The pieces of what [show_layers] writes: the line with the count, the
    separator line, and the line labelled with the prefix and the index (each
    of the two labelled lines ends in a blank line). *)
Definition total_line (n : nat) : string :=
  printed ("Total layers: " ++ str_nat n ++ nl).

Definition separator_line : string := printed "========".

Definition labelled_line {A} (h : heap A) (layer_prefix : string) (i : nat) (r : ref)
  : string :=
  printed (layer_prefix ++ "_" ++ str_nat i ++ ": " ++
           layer_str (S (length h)) h r ++ nl).

(** What one iteration writes for the sublayer [r] at index [i]. *)
Definition layer_entry {A} (h : heap A) (layer_prefix : string) (ir : nat * ref)
  : list string :=
  [separator_line; labelled_line h layer_prefix (fst ir) (snd ir)].

(** *** Running a layer *)

(** The data that flows between layers. *)
#[warnings="-register-all"] Inductive value (A : Type) `{TraxLibrary A} : Type :=
| V_tokens (t : token_batch)
| V_rank3 (x : tensor A 2)
| V_rank2 (x : tensor A 1)
| V_tuple (vs : list value).

Arguments value A {_}.
Arguments V_tokens {A _} t.
Arguments V_rank3 {A _} x.
Arguments V_rank2 {A _} x.
Arguments V_tuple {A _} vs.

Fixpoint sequence {X} (l : list (option X)) : option (list X) :=
  match l with
  | [] => Some []
  | None :: _ => None
  | Some x :: l' =>
      match sequence l' with
      | Some xs => Some (x :: xs)
      | None => None
      end
  end.

(** [Serial] feeds each sublayer with the output of the one before it;
    [Parallel] gives the i-th input to the i-th sublayer.  The weights of a
    layer belong to the object, so [ws] is indexed by address. *)
Fixpoint apply {A} `{TraxLibrary A} (fuel : nat) (h : heap A)
  (ws : ref -> layer_weights) (r : ref) (v : value A) : option (value A) :=
  match fuel with
  | O => None
  | S fuel' =>
      match nth_error h r with
      | None => None
      | Some l =>
          match l, v with
          | Embedding vs d, V_tokens t =>
              Some (V_rank3 (Embedding_apply (ws r) vs d t))
          | LSTM n, V_rank3 x => Some (V_rank3 (LSTM_apply (ws r) n x))
          | Mean ax, V_rank3 x => Some (V_rank2 (Mean_apply ax x))
          | Fn _ f, V_rank2 x => Some (V_rank2 (f x))
          | Serial subs, _ =>
              fold_left
                (fun acc r' =>
                   match acc with
                   | Some a => apply fuel' h ws r' a
                   | None => None
                   end)
                subs (Some v)
          | Parallel subs, V_tuple vs =>
              if Nat.eqb (length subs) (length vs)
              then option_map V_tuple
                     (sequence (map (fun rv => apply fuel' h ws (fst rv) (snd rv))
                                    (combine subs vs)))
              else None
          | _, _ => None
          end
      end
  end.

End Trax.

(* ================================================================== *)
(** * Part II: properties *)
(* ================================================================== *)

(** ** Broadcasting and slices *)

Section TensorFacts.
Context {A : Type} `{Scalar A}.

Lemma combine_diag (X : Type) (l : list X) :
  combine l l = map (fun x => (x, x)) l.
Proof.
  induction l as [|a l IH]; simpl; [reflexivity | now rewrite IH].
Qed.

Lemma broadcast_map_r (X Y Z : Type) (f : X -> Y -> Z) (g : X -> Y) (xs : list X) :
  broadcast f xs (map g xs) = map (fun x => f x (g x)) xs.
Proof.
  destruct xs as [|x [|x' xs]]; try reflexivity.
  unfold broadcast.
  change (map g (x :: x' :: xs)) with (g x :: g x' :: map g xs).
  cbv iota.
  change (g x :: g x' :: map g xs) with (map g (x :: x' :: xs)).
  generalize (x :: x' :: xs); intros l.
  induction l as [|a l IH]; simpl; [reflexivity | now rewrite IH].
Qed.

Lemma broadcast_diag (X Z : Type) (f : X -> X -> Z) (xs : list X) :
  broadcast f xs xs = map (fun x => f x x) xs.
Proof.
  rewrite <- (map_id xs) at 2.
  now rewrite broadcast_map_r.
Qed.

Lemma broadcast_single_r (X Y Z : Type) (f : X -> Y -> Z) (xs : list X) (y : Y) :
  broadcast f xs [y] = map (fun x => f x y) xs.
Proof.
  destruct xs as [|x [|x' xs]]; reflexivity.
Qed.

(** On a slice, the code's expression is the division by the L2 norm. *)
Lemma normalize_slice (row : list A) :
  normalize (k := 0) row = divide_by_norm row.
Proof.
  unfold normalize, np.sqrt, np.sum, tensor_div, tensor_mul,
    tensor_sqrt, sum_last_keepdims.
  simpl.
  rewrite broadcast_diag, broadcast_single_r.
  reflexivity.
Qed.

(** On an array of higher rank it works slice by slice. *)
Lemma normalize_outer (k : nat) (x : tensor A (S k)) :
  normalize (k := S k) x = map (normalize (k := k)) x.
Proof.
  unfold normalize, np.sqrt, np.sum, tensor_div, tensor_mul,
    tensor_sqrt, sum_last_keepdims.
  simpl.
  rewrite broadcast_diag, !map_map, broadcast_map_r.
  reflexivity.
Qed.

Lemma normalize_is_spec (k : nat) (x : tensor A k) :
  normalize x = normalize_spec x.
Proof.
  induction k as [|k IH].
  - apply normalize_slice.
  - rewrite normalize_outer. unfold normalize_spec. simpl.
    apply map_ext. intros y. apply IH.
Qed.

Lemma normalize2_is_normalize (k : nat) (x : tensor A k) :
  normalize2 x = normalize x.
Proof. reflexivity. Qed.

Lemma rows_tmap_last (f : list A -> list A) (k : nat) (x : tensor A k) :
  rows k (tmap_last f k x) = map f (rows k x).
Proof.
  induction k as [|k IH]; simpl.
  - reflexivity.
  - induction x as [|y x IHx]; simpl.
    + reflexivity.
    + now rewrite map_app, IH, IHx.
Qed.

Lemma rows_normalize (k : nat) (x : tensor A k) :
  rows k (normalize x) = map divide_by_norm (rows k x).
Proof.
  rewrite normalize_is_spec. apply rows_tmap_last.
Qed.

Lemma same_shape_tmap_last (f : list A -> list A) (k : nat) (x : tensor A k) :
  (forall row, length (f row) = length row) ->
  same_shape k (tmap_last f k x) x.
Proof.
  intros Hf.
  induction k as [|k IH]; simpl.
  - apply Hf.
  - induction x as [|y x IHx]; simpl; constructor; auto.
Qed.

Lemma normalize_same_shape (k : nat) (x : tensor A k) :
  same_shape k (normalize x) x.
Proof.
  rewrite normalize_is_spec.
  apply same_shape_tmap_last.
  intros row. unfold divide_by_norm. apply length_map.
Qed.

End TensorFacts.

(** C3: for every tensor, of any rank and in either arithmetic, [normalize]
    is the input divided entry by entry by the square root of the sum of the
    squares along the last axis, and [normalize2] computes the same thing. *)
Theorem normalize_divides_by_l2norm :
  forall (A : Type) (Sc : Scalar A) (k : nat) (x : tensor A k),
    normalize x = normalize_spec x /\
    normalize2 x = normalize_spec x /\
    rows k (normalize x) =
      map (fun row =>
             map (fun a => s_div a (s_sqrt (sum_list (map (fun b => s_mul b b) row))))
                 row)
          (rows k x).
Proof.
  intros A Sc k x. split; [|split].
  - apply normalize_is_spec.
  - rewrite normalize2_is_normalize. apply normalize_is_spec.
  - apply rows_normalize.
Qed.

(** ** Exact arithmetic *)

Section RealFacts.
Local Open Scope R_scope.

Lemma fold_left_Rplus_acc (l : list R) (a : R) :
  fold_left Rplus l a = a + fold_left Rplus l 0.
Proof.
  revert a. induction l as [|b l IH]; intros a; simpl.
  - lra.
  - rewrite (IH (a + b)), (IH (0 + b)). lra.
Qed.

Lemma sum_list_cons (a : R) (l : list R) :
  sum_list (a :: l) = a + sum_list l.
Proof.
  unfold sum_list. simpl. rewrite fold_left_Rplus_acc. lra.
Qed.

Lemma sum_of_squares_cons (a : R) (l : list R) :
  sum_of_squares (a :: l) = a * a + sum_of_squares l.
Proof.
  unfold sum_of_squares. simpl. apply sum_list_cons.
Qed.

Lemma sum_of_squares_nonneg (l : list R) : 0 <= sum_of_squares l.
Proof.
  induction l as [|a l IH].
  - unfold sum_of_squares, sum_list. simpl. lra.
  - rewrite sum_of_squares_cons. nra.
Qed.

Lemma sum_of_squares_scaled (c : R) (l : list R) :
  sum_of_squares (map (fun a => a / c) l) = sum_of_squares l / (c * c).
Proof.
  induction l as [|a l IH].
  - unfold sum_of_squares, sum_list. simpl. unfold Rdiv. lra.
  - simpl. rewrite !sum_of_squares_cons, IH.
    unfold Rdiv. rewrite Rinv_mult. ring.
Qed.

Lemma l2norm_nonzero (row : list R) :
  l2norm row <> 0 -> 0 < sum_of_squares row.
Proof.
  intros Hn.
  destruct (Rle_lt_or_eq_dec _ _ (sum_of_squares_nonneg row)) as [Hlt | Heq];
    [exact Hlt|].
  exfalso. apply Hn. unfold l2norm. simpl. rewrite <- Heq. apply sqrt_0.
Qed.

(** The quotient of a slice by its nonzero norm has sum of squares 1. *)
Lemma divide_by_norm_unit (row : list R) :
  l2norm row <> 0 -> sum_of_squares (divide_by_norm row) = 1.
Proof.
  intros Hn. pose proof (l2norm_nonzero row Hn) as Hpos.
  unfold divide_by_norm. simpl. rewrite sum_of_squares_scaled.
  unfold l2norm. simpl. rewrite sqrt_sqrt by lra.
  field. lra.
Qed.

Lemma unit_sum_of_squares_norm (row : list R) :
  sum_of_squares row = 1 -> l2norm row = 1.
Proof.
  intros Hs. unfold l2norm. simpl. rewrite Hs. apply sqrt_1.
Qed.

Lemma divide_by_unit_norm (row : list R) :
  l2norm row = 1 -> divide_by_norm row = row.
Proof.
  intros Hn. unfold divide_by_norm. rewrite Hn.
  rewrite <- (map_id row) at 2. apply map_ext. intros a. simpl. field.
Qed.

Lemma divide_by_norm_idempotent (row : list R) :
  l2norm row <> 0 -> divide_by_norm (divide_by_norm row) = divide_by_norm row.
Proof.
  intros Hn. apply divide_by_unit_norm, unit_sum_of_squares_norm,
    divide_by_norm_unit, Hn.
Qed.

Lemma normalize_idempotent_real (k : nat) (x : tensor R k) :
  (forall row, In row (rows k x) -> l2norm row <> 0) ->
  normalize (normalize x) = normalize x.
Proof.
  induction k as [|k IH]; intros Hrows.
  - rewrite !normalize_slice. apply divide_by_norm_idempotent.
    apply Hrows. simpl. now left.
  - rewrite !normalize_outer, map_map. apply map_ext_in.
    intros y Hy. apply IH. intros row Hrow. apply Hrows.
    simpl. apply in_flat_map. exists y. split; assumption.
Qed.

Lemma normalize_unit_slices (k : nat) (x : tensor R k) (i : nat) (row : list R) :
  nth_error (rows k x) i = Some row ->
  l2norm row <> 0 ->
  option_map sum_of_squares (nth_error (rows k (normalize x)) i) = Some 1.
Proof.
  intros Hi Hn.
  rewrite rows_normalize, nth_error_map, Hi. simpl.
  now rewrite divide_by_norm_unit.
Qed.

End RealFacts.

(** C1 (as amended): in exact real arithmetic, every slice of the input along
    the last axis whose L2 norm is nonzero comes out of [normalize], and of
    [normalize2], with sum of squares exactly 1. *)
Theorem normalize_unit_length_exact :
  forall (k : nat) (x : tensor R k) (i : nat) (row : list R),
    nth_error (rows k x) i = Some row ->
    l2norm row <> 0%R ->
    option_map sum_of_squares (nth_error (rows k (normalize x)) i) = Some 1%R /\
    option_map sum_of_squares (nth_error (rows k (normalize2 x)) i) = Some 1%R.
Proof.
  intros k x i row Hi Hn. split.
  - exact (normalize_unit_slices k x i Hi Hn).
  - rewrite normalize2_is_normalize. exact (normalize_unit_slices k x i Hi Hn).
Qed.

Lemma l2norm_ones_nonzero : l2norm [1%R; 1%R] <> 0%R.
Proof.
  unfold l2norm, sum_of_squares, sum_list. simpl.
  apply Rgt_not_eq, Rlt_gt, sqrt_lt_R0. lra.
Defined.

Lemma normalize_unit_length_exact_witness :
  nth_error (rows 0 [1%R; 1%R]) 0 = Some [1%R; 1%R] /\
  l2norm [1%R; 1%R] <> 0%R /\
  option_map sum_of_squares
    (nth_error (rows 0 (normalize (k := 0) [1%R; 1%R])) 0) = Some 1%R /\
  option_map sum_of_squares
    (nth_error (rows 0 (normalize2 (k := 0) [1%R; 1%R])) 0) = Some 1%R.
Proof.
  split; [reflexivity|]. split; [exact l2norm_ones_nonzero|].
  apply (@normalize_unit_length_exact 0 [1%R; 1%R] 0%nat [1%R; 1%R]).
  - reflexivity.
  - exact l2norm_ones_nonzero.
Defined.

(** C1 as stated fails in float32: the vector (1, 1) has a nonzero norm, and
    the sum of the squares of [normalize] of it is 16777215 * 2^-24
    (0.99999994, the value the notebook itself prints for its second row),
    whether the squares are summed in float32 or exactly. *)
Lemma normalize_unit_length_float32_counterexample :
  let x : tensor float32 0 := [f32 1; f32 1] in
  l2norm x <> s_zero /\
  sum_of_squares (normalize x) = S754_finite false 16777215 (-24) /\
  sum_of_squares (normalize x) <> s_one /\
  sum_of_squares (normalize2 x) <> s_one /\
  ~ (exact_sum_of_squares (normalize x) == 1)%Q.
Proof.
  repeat split; try (vm_compute; discriminate).
Qed.

(** C10 (as amended): [normalize] and [normalize2] return an array of the
    shape of their input, in any arithmetic; and in exact real arithmetic
    they are idempotent on arrays whose slices all have a nonzero L2 norm. *)
Theorem normalize_idempotent_exact :
  (forall (A : Type) (Sc : Scalar A) (k : nat) (x : tensor A k),
      same_shape k (normalize x) x /\ same_shape k (normalize2 x) x) /\
  (forall (k : nat) (x : tensor R k),
      (forall row, In row (rows k x) -> l2norm row <> 0%R) ->
      normalize (normalize x) = normalize x /\
      normalize2 (normalize2 x) = normalize2 x).
Proof.
  split.
  - intros A Sc k x. split.
    + apply normalize_same_shape.
    + rewrite normalize2_is_normalize. apply normalize_same_shape.
  - intros k x Hrows. split.
    + apply normalize_idempotent_real, Hrows.
    + rewrite !normalize2_is_normalize. apply normalize_idempotent_real, Hrows.
Qed.

Lemma normalize_idempotent_exact_witness :
  (forall row, In row (rows 0 [3%R; 4%R]) -> l2norm row <> 0%R) /\
  normalize (k := 0) (normalize (k := 0) [3%R; 4%R]) = normalize (k := 0) [3%R; 4%R] /\
  normalize2 (k := 0) (normalize2 (k := 0) [3%R; 4%R]) = normalize2 (k := 0) [3%R; 4%R].
Proof.
  assert (Hrows : forall row, In row (rows 0 [3%R; 4%R]) -> l2norm row <> 0%R).
  { intros row [<- | []].
    unfold l2norm, sum_of_squares, sum_list. simpl.
    apply Rgt_not_eq, Rlt_gt, sqrt_lt_R0. lra. }
  split; [exact Hrows|].
  exact (proj2 normalize_idempotent_exact 0%nat [3%R; 4%R] Hrows).
Defined.

(** C10 as stated fails in float32: normalizing (1, 1) a second time moves
    both entries from 11863283 * 2^-24 to 11863284 * 2^-24. *)
Lemma normalize_idempotent_float32_counterexample :
  let x : tensor float32 0 := [f32 1; f32 1] in
  l2norm x <> s_zero /\
  normalize x = [S754_finite false 11863283 (-24); S754_finite false 11863283 (-24)] /\
  normalize (normalize x) =
    [S754_finite false 11863284 (-24); S754_finite false 11863284 (-24)] /\
  normalize (normalize x) <> normalize x /\
  normalize2 (normalize2 x) <> normalize2 x.
Proof.
  repeat split; try (vm_compute; discriminate); vm_compute; reflexivity.
Qed.

(** ** Floating point: the all-zero slice *)

Section ZeroSlice.

Lemma tmap_last_compose (A : Type) (f g : list A -> list A) (k : nat) (x : tensor A k) :
  tmap_last f k (tmap_last g k x) = tmap_last (fun row => f (g row)) k x.
Proof.
  induction k as [|k IH]; simpl.
  - reflexivity.
  - rewrite map_map. apply map_ext. intros y. apply IH.
Qed.

Lemma tensor_square (A : Type) (Sc : Scalar A) (k : nat) (x : tensor A k) :
  tensor_mul x x = tmap_last (map (fun a => s_mul a a)) k x.
Proof.
  unfold tensor_mul.
  induction k as [|k IH]; simpl.
  - apply broadcast_diag.
  - rewrite broadcast_diag. apply map_ext. intros y. apply IH.
Qed.

(** The denominator of the code's division, slice by slice. *)
Lemma denominator_rows (A : Type) (Sc : Scalar A) (k : nat) (x : tensor A k) :
  rows k (np.sqrt (np.sum (tensor_mul x x))) =
  map (fun row => [l2norm row]) (rows k x).
Proof.
  unfold np.sqrt, np.sum, tensor_sqrt, sum_last_keepdims.
  rewrite tensor_square, !tmap_last_compose, rows_tmap_last.
  reflexivity.
Qed.

Lemma square_of_zero (a : float32) :
  is_zero a -> s_mul a a = S754_zero false.
Proof. intros [-> | ->]; reflexivity. Qed.

Lemma sum_of_squares_zeros (row : list float32) :
  Forall is_zero row -> sum_of_squares row = S754_zero false.
Proof.
  unfold sum_of_squares, sum_list.
  change (@s_zero float32 binary32) with (S754_zero false).
  induction 1 as [|a row Ha _ IH]; cbn [map fold_left].
  - reflexivity.
  - rewrite (square_of_zero Ha). exact IH.
Qed.

Lemma l2norm_zeros (row : list float32) :
  Forall is_zero row -> l2norm row = S754_zero false.
Proof.
  intros Hz. unfold l2norm. rewrite (sum_of_squares_zeros Hz). reflexivity.
Qed.

Lemma divide_by_norm_zeros (row : list float32) :
  Forall is_zero row -> divide_by_norm row = map (fun _ => S754_nan) row.
Proof.
  intros Hz. unfold divide_by_norm. rewrite (l2norm_zeros Hz).
  apply map_ext_in. intros a Ha.
  rewrite Forall_forall in Hz. destruct (Hz a Ha) as [-> | ->]; reflexivity.
Qed.

Lemma sum_from_nan (l : list float32) :
  fold_left s_add l S754_nan = S754_nan.
Proof.
  induction l as [|a l IH]; cbn [fold_left]; [reflexivity|].
  destruct a; exact IH.
Qed.

Lemma sum_of_squares_nans (X : Type) (row : list X) :
  sum_of_squares (map (fun _ => S754_nan) row) <> @s_one float32 binary32.
Proof.
  unfold sum_of_squares, sum_list.
  destruct row as [|a row]; cbn [map fold_left].
  - vm_compute. discriminate.
  - change (s_add s_zero (s_mul S754_nan S754_nan)) with S754_nan.
    rewrite sum_from_nan. vm_compute. discriminate.
Qed.

End ZeroSlice.

(** C9: in float32, wherever the input has an all-zero slice along the last
    axis, the denominator of the division is 0 there, and [normalize] and
    [normalize2] return, without raising, a slice whose every entry is NaN,
    which is not a vector of unit length. *)
Theorem normalize_zero_slice_is_nan :
  forall (k : nat) (x : tensor float32 k) (i : nat) (row : list float32),
    nth_error (rows k x) i = Some row ->
    Forall is_zero row ->
    nth_error (rows k (np.sqrt (np.sum (tensor_mul x x)))) i = Some [S754_zero false] /\
    nth_error (rows k (normalize x)) i = Some (map (fun _ => S754_nan) row) /\
    nth_error (rows k (normalize2 x)) i = Some (map (fun _ => S754_nan) row) /\
    sum_of_squares (map (fun _ : float32 => S754_nan) row) <> s_one.
Proof.
  intros k x i row Hi Hz.
  assert (Hn : nth_error (rows k (normalize x)) i = Some (map (fun _ => S754_nan) row)).
  { rewrite rows_normalize, nth_error_map, Hi. cbn [option_map].
    now rewrite (divide_by_norm_zeros Hz). }
  repeat split.
  - rewrite denominator_rows, nth_error_map, Hi. cbn [option_map].
    now rewrite (l2norm_zeros Hz).
  - exact Hn.
  - rewrite normalize2_is_normalize. exact Hn.
  - apply sum_of_squares_nans.
Qed.

Lemma normalize_zero_slice_is_nan_witness :
  let x : tensor float32 1 := [[f32 3; f32 4]; [f32 0; f32 0]] in
  nth_error (rows 1 x) 1 = Some [f32 0; f32 0] /\
  Forall is_zero [f32 0; f32 0] /\
  nth_error (rows 1 (np.sqrt (np.sum (tensor_mul x x)))) 1 = Some [S754_zero false] /\
  nth_error (rows 1 (normalize x)) 1 = Some [S754_nan; S754_nan] /\
  nth_error (rows 1 (normalize2 x)) 1 = Some [S754_nan; S754_nan] /\
  sum_of_squares [S754_nan; S754_nan] <> @s_one float32 binary32.
Proof.
  intros x.
  assert (Hz : Forall is_zero [f32 0; f32 0]).
  { repeat constructor; left; reflexivity. }
  split; [reflexivity|]. split; [exact Hz|].
  exact (@normalize_zero_slice_is_nan 1 x 1%nat [f32 0; f32 0] eq_refl Hz).
Defined.

(** ** Matrix product with the transpose *)

Section MatrixFacts.
Context {A : Type} `{Scalar A}.

Lemma map_nth_seq (X : Type) (l : list X) (d0 : X) :
  map (fun j => nth j l d0) (seq 0 (length l)) = l.
Proof.
  induction l as [|a l IH]; simpl.
  - reflexivity.
  - f_equal. rewrite <- seq_shift, map_map. exact IH.
Qed.

Lemma nth_map_in_range (X Y : Type) (f : X -> Y) (l : list X) (i : nat) (d0 : X) (d1 : Y) :
  i < length l -> nth i (map f l) d1 = f (nth i l d0).
Proof.
  intros Hi.
  rewrite (nth_indep (map f l) d1 (f d0)) by (rewrite length_map; exact Hi).
  apply map_nth.
Qed.

Lemma is_matrix_row (X : Type) (m d : nat) (x : tensor X 1) (i : nat) :
  is_matrix m d x -> i < m -> length (nth i x []) = d.
Proof.
  intros [Hm Hrows] Hi.
  rewrite Forall_forall in Hrows. apply Hrows, nth_In. lia.
Qed.

Lemma transpose_involutive (n d : nat) (x : tensor A 1) :
  is_matrix n d x -> 0 < d -> transpose (transpose x) = x.
Proof.
  intros Hx Hd.
  destruct x as [|r0 rest]; [reflexivity|].
  assert (Hn : 0 < n) by (destruct Hx as [<- _]; simpl; lia).
  assert (Hc : ncols (r0 :: rest) = d) by exact (is_matrix_row (i := 0) Hx Hn).
  remember (r0 :: rest) as x eqn:Ex. clear Ex r0 rest.
  assert (Hlen : length x = n) by apply Hx.
  assert (Hct : ncols (transpose x) = n).
  { unfold transpose. rewrite Hc.
    destruct d as [|d']; [lia|]. simpl. now rewrite length_map. }
  unfold transpose at 1. rewrite Hct, <- Hlen.
  transitivity (map (fun i => nth i x []) (seq 0 (length x)));
    [|apply map_nth_seq].
  apply map_ext_in. intros i Hi. apply in_seq in Hi.
  assert (Hin : i < n) by lia.
  assert (Hri : length (nth i x []) = d) by exact (is_matrix_row Hx Hin).
  unfold transpose. rewrite Hc, map_map.
  transitivity (map (fun j => nth j (nth i x []) s_zero) (seq 0 d));
    [|rewrite <- Hri; apply map_nth_seq].
  apply map_ext. intros j.
  apply (nth_map_in_range (fun r => nth j r s_zero) x [] s_zero).
  exact (proj2 Hi).
Qed.

(** Row [i] of the result lists the dot products of row [i] of [x1] with
    the rows of [x2]. *)
Lemma cosine_similarity_rows (n d : nat) (x1 x2 : tensor A 1) :
  is_matrix n d x2 -> 0 < d ->
  cosine_similarity x1 x2 = map (fun u => map (fun v => dot u v) x2) x1.
Proof.
  intros Hx Hd. unfold cosine_similarity, matmul.
  now rewrite (transpose_involutive Hx Hd).
Qed.

Lemma cosine_similarity_entry (n d : nat) (x1 x2 : tensor A 1) (i j : nat) :
  is_matrix n d x2 -> 0 < d -> i < length x1 -> j < n ->
  entry (cosine_similarity x1 x2) i j = dot (nth i x1 []) (nth j x2 []).
Proof.
  intros Hx Hd Hi Hj. unfold entry.
  rewrite (cosine_similarity_rows x1 Hx Hd).
  rewrite (nth_map_in_range (fun u => map (fun v => dot u v) x2) x1 [] [] Hi).
  apply nth_map_in_range. destruct Hx as [-> _]. exact Hj.
Qed.

Lemma cosine_similarity_shape (m n d : nat) (x1 x2 : tensor A 1) :
  length x1 = m -> is_matrix n d x2 -> 0 < d ->
  is_matrix m n (cosine_similarity x1 x2).
Proof.
  intros Hm Hx Hd. rewrite (cosine_similarity_rows x1 Hx Hd). split.
  - now rewrite length_map.
  - apply Forall_forall. intros r Hr. apply in_map_iff in Hr.
    destruct Hr as [u [<- _]]. rewrite length_map. apply Hx.
Qed.

Lemma dot_diag (v : list A) : dot v v = sum_of_squares v.
Proof.
  unfold dot, sum_of_squares. now rewrite combine_diag, map_map.
Qed.

Lemma cosine_similarity_diagonal (m d : nat) (x : tensor A 1) (i : nat) :
  is_matrix m d x -> 0 < d -> i < m ->
  entry (cosine_similarity x x) i i = sum_of_squares (nth i x []).
Proof.
  intros Hx Hd Hi.
  rewrite (cosine_similarity_entry (i := i) (j := i) x Hx Hd).
  - apply dot_diag.
  - destruct Hx as [-> _]. exact Hi.
  - exact Hi.
Qed.

Lemma normalize_matrix_row (x : tensor A 1) (i : nat) :
  nth i (normalize (k := 1) x) [] = divide_by_norm (nth i x []).
Proof.
  rewrite normalize_outer.
  revert i. induction x as [|r x IH]; intros [|i]; cbn [map nth].
  - reflexivity.
  - reflexivity.
  - apply normalize_slice.
  - apply IH.
Qed.

Lemma normalize_is_matrix (m d : nat) (x : tensor A 1) :
  is_matrix m d x -> is_matrix m d (normalize (k := 1) x).
Proof.
  intros [Hm Hrows]. rewrite normalize_outer. split.
  - now rewrite length_map.
  - apply Forall_forall. intros r Hr. apply in_map_iff in Hr.
    destruct Hr as [u [<- Hu]]. rewrite normalize_slice.
    unfold divide_by_norm. rewrite length_map.
    rewrite Forall_forall in Hrows. now apply Hrows.
Qed.

End MatrixFacts.

(** ** Cosine similarity *)

Section CosineFacts.
Local Open Scope R_scope.

Lemma cosine_of_unit_rows (u v : list R) :
  l2norm u = 1 -> l2norm v = 1 -> dot u v = cosine u v.
Proof.
  intros Hu Hv. unfold cosine. rewrite Hu, Hv. field.
Qed.

Lemma dot_is_cosine_iff (u v : list R) :
  l2norm u <> 0 -> l2norm v <> 0 ->
  (dot u v = cosine u v <-> dot u v = 0 \/ l2norm u * l2norm v = 1).
Proof.
  intros Hu Hv. unfold cosine.
  set (p := l2norm u * l2norm v).
  assert (Hp : p <> 0) by (unfold p; nra).
  set (c := dot u v).
  split.
  - intros Heq.
    assert (Hc : c * p = c).
    { rewrite Heq at 1. field. exact Hp. }
    destruct (Req_dec c 0) as [Hz | Hnz]; [now left | right].
    apply (Rmult_eq_reg_l c); [lra | exact Hnz].
  - intros [Hz | Hone].
    + rewrite Hz. unfold Rdiv. ring.
    + rewrite Hone. field.
Qed.

Lemma l2norm_2_0 : l2norm [2; 0] = 2.
Proof.
  unfold l2norm, sum_of_squares, sum_list. simpl.
  replace (0 + 2 * 2 + 0 * 0) with (2 * 2) by ring.
  apply sqrt_square. lra.
Qed.

Lemma l2norm_half_0 : l2norm [/ 2; 0] = / 2.
Proof.
  unfold l2norm, sum_of_squares, sum_list. simpl.
  replace (0 + / 2 * / 2 + 0 * 0) with (/ 2 * / 2) by ring.
  apply sqrt_square. lra.
Qed.

End CosineFacts.

(** C6 (as amended): in any arithmetic, for [x1] with [m] rows and [x2] with
    [n] rows of the same positive length, [cosine_similarity x1 x2] is
    [x1 @ x2.T], an m-by-n matrix whose entry (i, j) is the dot product of
    row i of [x1] with row j of [x2].  In exact arithmetic that entry is the
    cosine of the two rows whenever both have L2 norm 1, and for rows of
    nonzero norm it is the cosine if and only if the dot product is 0 or the
    product of the two norms is 1. *)
Theorem cosine_similarity_is_row_dot_products :
  (forall (A : Type) (Sc : Scalar A) (m n d : nat) (x1 x2 : tensor A 1),
      is_matrix m d x1 -> is_matrix n d x2 -> 0 < d ->
      cosine_similarity x1 x2 = matmul x1 (transpose x2) /\
      is_matrix m n (cosine_similarity x1 x2) /\
      (forall i j, i < m -> j < n ->
         entry (cosine_similarity x1 x2) i j = dot (nth i x1 []) (nth j x2 []))) /\
  (forall (m n d : nat) (x1 x2 : tensor R 1) (i j : nat),
      is_matrix m d x1 -> is_matrix n d x2 -> 0 < d -> i < m -> j < n ->
      (l2norm (nth i x1 []) = 1%R -> l2norm (nth j x2 []) = 1%R ->
       entry (cosine_similarity x1 x2) i j = cosine (nth i x1 []) (nth j x2 [])) /\
      (l2norm (nth i x1 []) <> 0%R -> l2norm (nth j x2 []) <> 0%R ->
       (entry (cosine_similarity x1 x2) i j = cosine (nth i x1 []) (nth j x2 []) <->
        dot (nth i x1 []) (nth j x2 []) = 0%R \/
        (l2norm (nth i x1 []) * l2norm (nth j x2 []))%R = 1%R))).
Proof.
  split.
  - intros A Sc m n d x1 x2 H1 H2 Hd. split; [reflexivity|]. split.
    + apply (cosine_similarity_shape (d := d)); [apply H1 | exact H2 | exact Hd].
    + intros i j Hi Hj. apply (cosine_similarity_entry x1 H2 Hd); [|exact Hj].
      destruct H1 as [-> _]. exact Hi.
  - intros m n d x1 x2 i j H1 H2 Hd Hi Hj.
    assert (He : entry (cosine_similarity x1 x2) i j = dot (nth i x1 []) (nth j x2 [])).
    { apply (cosine_similarity_entry x1 H2 Hd); [|exact Hj].
      destruct H1 as [-> _]. exact Hi. }
    rewrite He. split.
    + apply cosine_of_unit_rows.
    + apply dot_is_cosine_iff.
Qed.

Lemma cosine_similarity_is_row_dot_products_witness :
  let x1 : tensor R 1 := [[1%R; 0%R]] in
  let x2 : tensor R 1 := [[1%R; 0%R]; [0%R; 1%R]] in
  is_matrix 1 2 x1 /\ is_matrix 2 2 x2 /\ 0 < 2 /\ 0 < 1 /\ 1 < 2 /\
  is_matrix 1 2 (cosine_similarity x1 x2) /\
  entry (cosine_similarity x1 x2) 0 1 = dot [1%R; 0%R] [0%R; 1%R] /\
  (l2norm [1%R; 0%R] = 1%R -> l2norm [0%R; 1%R] = 1%R ->
   entry (cosine_similarity x1 x2) 0 1 = cosine [1%R; 0%R] [0%R; 1%R]).
Proof.
  intros x1 x2.
  assert (H1 : is_matrix 1 2 x1) by (split; [reflexivity | repeat constructor]).
  assert (H2 : is_matrix 2 2 x2) by (split; [reflexivity | repeat constructor]).
  assert (Hd : 0 < 2) by lia.
  assert (Hi : 0 < 1) by lia.
  assert (Hj : 1 < 2) by lia.
  repeat (split; [assumption|]).
  split; [|split].
  - exact (proj1 (proj2 (proj1 cosine_similarity_is_row_dot_products
                           R R_scalar 1%nat 2%nat 2%nat x1 x2 H1 H2 Hd))).
  - exact (proj2 (proj2 (proj1 cosine_similarity_is_row_dot_products
                           R R_scalar 1%nat 2%nat 2%nat x1 x2 H1 H2 Hd))
             0%nat 1%nat Hi Hj).
  - exact (proj1 (proj2 cosine_similarity_is_row_dot_products
                    1%nat 2%nat 2%nat x1 x2 0%nat 1%nat H1 H2 Hd Hi Hj)).
Defined.

(** C6 as stated fails in its "only when" half: the rows (2, 0) and (1/2, 0)
    are not unit-normalized, yet their dot product, 1, is their cosine. *)
Lemma cosine_similarity_not_only_unit_rows :
  let u : list R := [2%R; 0%R] in
  let v : list R := [(/ 2)%R; 0%R] in
  entry (cosine_similarity [u] [v]) 0 0 = cosine u v /\
  l2norm u <> 1%R /\ l2norm v <> 1%R /\
  ~ (entry (cosine_similarity [u] [v]) 0 0 = cosine u v <->
     l2norm u = 1%R /\ l2norm v = 1%R).
Proof.
  intros u v.
  assert (He : entry (cosine_similarity [u] [v]) 0 0 = cosine u v).
  { unfold cosine, u, v. rewrite l2norm_2_0, l2norm_half_0.
    unfold entry, cosine_similarity, matmul, transpose, dot, sum_list. simpl.
    field. }
  assert (Hu : l2norm u <> 1%R) by (unfold u; rewrite l2norm_2_0; lra).
  assert (Hv : l2norm v <> 1%R) by (unfold v; rewrite l2norm_half_0; lra).
  repeat split; try assumption.
  intros [Hto _]. apply Hu. apply (Hto He).
Qed.

(** C7 (as amended): in any arithmetic, when a row of a matrix has sum of
    squares 1, the corresponding diagonal entry of [cosine_similarity] of the
    matrix with itself is 1; and in exact arithmetic this is the case for
    every row of [normalize] or [normalize2] of a matrix whose row has a
    nonzero L2 norm. *)
Theorem cosine_similarity_of_unit_row_with_itself :
  (forall (A : Type) (Sc : Scalar A) (m d : nat) (x : tensor A 1) (i : nat),
      is_matrix m d x -> 0 < d -> i < m ->
      sum_of_squares (nth i x []) = s_one ->
      entry (cosine_similarity x x) i i = s_one) /\
  (forall (m d : nat) (x : tensor R 1) (i : nat),
      is_matrix m d x -> 0 < d -> i < m ->
      l2norm (nth i x []) <> 0%R ->
      entry (cosine_similarity (normalize x) (normalize x)) i i = 1%R /\
      entry (cosine_similarity (normalize2 x) (normalize2 x)) i i = 1%R).
Proof.
  split.
  - intros A Sc m d x i Hx Hd Hi Hu.
    rewrite (cosine_similarity_diagonal Hx Hd Hi). exact Hu.
  - intros m d x i Hx Hd Hi Hn.
    assert (Hgoal : entry (cosine_similarity (normalize x) (normalize x)) i i = 1%R).
    { rewrite (cosine_similarity_diagonal (normalize_is_matrix Hx) Hd Hi).
      rewrite normalize_matrix_row. apply divide_by_norm_unit, Hn. }
    split; [exact Hgoal|].
    rewrite normalize2_is_normalize. exact Hgoal.
Qed.

Lemma cosine_similarity_of_unit_row_with_itself_witness :
  let x : tensor float32 1 := [[f32 1; f32 0]; [f32 0; f32 1]] in
  is_matrix 2 2 x /\ 0 < 2 /\ 1 < 2 /\
  sum_of_squares (nth 1 x []) = s_one /\
  entry (cosine_similarity x x) 1 1 = s_one.
Proof.
  intros x.
  assert (Hx : is_matrix 2 2 x) by (split; [reflexivity | repeat constructor]).
  assert (Hd : 0 < 2) by lia.
  assert (Hi : 1 < 2) by lia.
  assert (Hu : sum_of_squares (nth 1 x []) = @s_one float32 binary32) by reflexivity.
  repeat (split; [assumption|]).
  exact (proj1 cosine_similarity_of_unit_row_with_itself
           float32 binary32 2%nat 2%nat x 1%nat Hx Hd Hi Hu).
Defined.

(** C7 as stated fails in float32 for outputs of [normalize]: for the
    nonzero input (1, 1), [cosine_similarity] of the normalized vector with
    itself is 16777215 * 2^-24, not 1. *)
Lemma cosine_similarity_self_float32_counterexample :
  let x : tensor float32 1 := [[f32 1; f32 1]] in
  l2norm (nth 0 x []) <> s_zero /\
  cosine_similarity (normalize x) (normalize x) = [[S754_finite false 16777215 (-24)]] /\
  entry (cosine_similarity (normalize x) (normalize x)) 0 0 <> s_one /\
  entry (cosine_similarity (normalize2 x) (normalize2 x)) 0 0 <> s_one.
Proof.
  repeat split; try (vm_compute; discriminate); vm_compute; reflexivity.
Qed.

(** ** The PyTorch modules *)

Section PytorchFacts.
Context {A : Type} `{Scalar A} `{TorchLibrary A}.
Import Pytorch.

Lemma Sub_forward_unfold (self : Sub A) (x : tokens) :
  Sub_forward self x =
  normalize2 (tensor_mean 1 (fst (call_lstm (lstm self) (call_embed (embed self) x)))).
Proof.
  unfold Sub_forward.
  destruct (call_lstm (lstm self) (call_embed (embed self) x)) as [y hidden].
  reflexivity.
Qed.

Lemma Siamese_forward_unfold (self : Siamese A) (x1 x2 : tokens) :
  Siamese_forward self x1 x2 =
  cosine_similarity (Sub_forward (sub self) x1) (Sub_forward (sub self) x2).
Proof. reflexivity. Qed.

Lemma Siamese_parameter_names (m : Siamese A) :
  map fst (Siamese_named_parameters m) =
  ["sub.embed.weight"; "sub.lstm.weight_ih_l0"; "sub.lstm.weight_hh_l0";
   "sub.lstm.bias_ih_l0"; "sub.lstm.bias_hh_l0"]%string.
Proof. reflexivity. Qed.

Lemma Siamese_parameter_values (m : Siamese A) :
  map snd (Siamese_named_parameters m) =
  [Param 1 (weight (embed (sub m)));
   Param 1 (weight_ih_l0 (lstm (sub m)));
   Param 1 (weight_hh_l0 (lstm (sub m)));
   Param 0 (bias_ih_l0 (lstm (sub m)));
   Param 0 (bias_hh_l0 (lstm (sub m)))].
Proof. reflexivity. Qed.

End PytorchFacts.

(** ** The Trax objects *)

Section TraxFacts.
Context {A : Type} `{Scalar A}.
Import Trax.

Lemma build_result (h : heap A) :
  build h = ((4 + length h, 5 + length h), h ++ built_objects (length h)).
Proof.
  unfold build, bind, new, ret, built_objects.
  repeat rewrite length_app. cbn [length].
  repeat rewrite <- app_assoc. cbn [app].
  replace (length h + 1) with (1 + length h) by lia.
  replace (1 + length h + 1) with (2 + length h) by lia.
  replace (2 + length h + 1) with (3 + length h) by lia.
  replace (3 + length h + 1) with (4 + length h) by lia.
  replace (4 + length h + 1) with (5 + length h) by lia.
  reflexivity.
Qed.

Lemma built_lookup (h : heap A) (j : nat) :
  nth_error (h ++ built_objects (length h)) (j + length h) =
  nth_error (built_objects (length h)) j.
Proof.
  rewrite nth_error_app2 by lia. f_equal. lia.
Qed.

End TraxFacts.

Section TraxRun.
Context {A : Type} `{Scalar A} `{TraxLibrary A}.
Import Trax.

(** Running the [Serial] object of the model cell on a batch of tokens. *)
Lemma apply_built_Serial (h : heap A) (ws : ref -> layer_weights)
  (x : token_batch) (fuel : nat) :
  apply (S (S fuel)) (h ++ built_objects (length h)) ws (4 + length h) (V_tokens x) =
  Some (V_rank2
          (normalize
             (Mean_apply 1
                (LSTM_apply (ws (1 + length h)) model_dimension
                   (Embedding_apply (ws (length h)) vocab_size model_dimension x))))).
Proof.
  pose proof (built_lookup h 0) as L0.
  pose proof (built_lookup h 1) as L1.
  pose proof (built_lookup h 2) as L2.
  pose proof (built_lookup h 3) as L3.
  pose proof (built_lookup h 4) as L4.
  change (0 + length h) with (length h) in L0.
  cbn [built_objects nth_error] in L0, L1, L2, L3, L4.
  cbn [apply]. rewrite L4. cbn [fold_left].
  rewrite L0, L1, L2, L3.
  reflexivity.
Qed.

(** Running the [Parallel] object on a pair of inputs runs that one [Serial]
    object, with its one set of weights, on each of them. *)
Lemma apply_built_Parallel (h : heap A) (ws : ref -> layer_weights)
  (v1 v2 : value A) (fuel : nat) :
  apply (S fuel) (h ++ built_objects (length h)) ws (5 + length h) (V_tuple [v1; v2]) =
  match apply fuel (h ++ built_objects (length h)) ws (4 + length h) v1,
        apply fuel (h ++ built_objects (length h)) ws (4 + length h) v2 with
  | Some o1, Some o2 => Some (V_tuple [o1; o2])
  | _, _ => None
  end.
Proof.
  pose proof (built_lookup h 5) as L5.
  cbn [built_objects nth_error] in L5.
  cbn [apply]. rewrite L5.
  cbn [length Nat.eqb combine map fst snd sequence].
  destruct (apply fuel (h ++ built_objects (length h)) ws (4 + length h) v1);
    destruct (apply fuel (h ++ built_objects (length h)) ws (4 + length h) v2);
    reflexivity.
Qed.

End TraxRun.

(** ** The encoder, stage by stage *)

Section EncoderFacts.

Lemma combine_with_repeat (X St Y : Type) (f : X -> St -> Y) (l : list X) (init : St) :
  map (fun p => f (fst p) (snd p)) (combine l (repeat init (length l))) =
  map (fun x => f x init) l.
Proof.
  induction l as [|a l IH]; cbn [length repeat combine map]; [reflexivity|].
  now rewrite IH.
Qed.

Lemma combine_of_maps (X Y X' Y' : Type) (f : X -> X') (g : Y -> Y')
  (a : list X) (b : list Y) :
  combine (map f a) (map g b) = map (fun p => (f (fst p), g (snd p))) (combine a b).
Proof.
  revert b. induction a as [|x a IH]; intros [|y b]; cbn [map combine];
    try reflexivity.
  now rewrite IH.
Qed.

(** The Trax [Serial] object of the model cell holds an embedding, an LSTM,
    a mean over axis 1 and the normalize function, in that order, and running
    it applies them in that order, the last one dividing every row by its
    norm. *)
Lemma trax_serial_four_stages (A : Type) (Sc : Scalar A) (T : TraxLibrary A)
  (h : Trax.heap A) :
  let LSTM := fst (fst (Trax.build h)) in
  let h' := snd (Trax.build h) in
  exists e l m f : Trax.ref,
    nth_error h' LSTM = Some (Trax.Serial [e; l; m; f]) /\
    nth_error h' e = Some (Trax.Embedding 500 128) /\
    nth_error h' l = Some (Trax.LSTM 128) /\
    nth_error h' m = Some (Trax.Mean 1) /\
    nth_error h' f = Some (Trax.Fn "Normalize" (fun x => normalize x)) /\
    forall (ws : Trax.ref -> layer_weights) (x : token_batch) (fuel : nat),
      Trax.apply (2 + fuel) h' ws LSTM (Trax.V_tokens x) =
      Some (Trax.V_rank2
              (map divide_by_norm
                 (Mean_apply 1
                    (LSTM_apply (ws l) 128
                       (Embedding_apply (ws e) 500 128 x))))).
Proof.
  rewrite build_result. cbn [fst snd].
  exists (length h), (1 + length h), (2 + length h), (3 + length h).
  pose proof (built_lookup h 0) as L0.
  change (0 + length h) with (length h) in L0.
  rewrite (built_lookup h 4), L0, (built_lookup h 1),
    (built_lookup h 2), (built_lookup h 3).
  repeat (split; [reflexivity|]).
  intros ws x fuel.
  change (2 + fuel) with (S (S fuel)).
  rewrite apply_built_Serial, (@normalize_is_spec A Sc 1). reflexivity.
Qed.

End EncoderFacts.

(** C4: in the PyTorch version the stages are in the order the claim gives
    (embedding lookup, LSTM, mean over axis 1, division of every row by its
    L2 norm), but axis 1 is not the time axis of the LSTM: [nn.LSTM] is
    constructed without [batch_first], so on the batch-first input the
    recurrence runs along axis 0, across the samples.  For every embedding
    table, all LSTM weights and any gate arithmetic: the output for the first
    sample is one step from the zero state on each of its tokens separately;
    the output for the second sample at position j is a step on its token
    from the state left by the first sample's token at position j.  On the
    notebook's batch [[1,2,3,4,0,0],[1,1,1,0,0,0]] this is the first matrix
    below, where a recurrence along axis 1 gives the second. *)
Theorem pytorch_lstm_recurs_across_samples :
  forall (A : Type) (Sc : Scalar A) (N : ScalarOfNat A) (K : LSTMKernel A)
         (self : Pytorch.Sub A),
    let table := Pytorch.weight (Pytorch.embed self) in
    let step :=
      lstm_step (Pytorch.weight_ih_l0 (Pytorch.lstm self))
                (Pytorch.weight_hh_l0 (Pytorch.lstm self))
                (Pytorch.bias_ih_l0 (Pytorch.lstm self))
                (Pytorch.bias_hh_l0 (Pytorch.lstm self)) in
    let s0 := lstm_zero_state (Pytorch.weight_hh_l0 (Pytorch.lstm self)) in
    let e := fun tok : nat => nth tok table [] in
    let lstm_out := fun x : list (list nat) =>
      fst (@Pytorch.call_lstm A (torch_nn A) (Pytorch.lstm self)
             (@Pytorch.call_embed A (torch_nn A) (Pytorch.embed self) x)) in
    (forall x : list (list nat),
        @Pytorch.Sub_forward A Sc (torch_nn A) self x =
        map (fun row =>
               map (fun a => s_div a (s_sqrt (sum_list (map (fun b => s_mul b b) row))))
                   row)
            (map mean_vectors (lstm_out x))) /\
    (forall (r0 r1 : list nat) (rest : list (list nat)),
        nth 0 (lstm_out (r0 :: r1 :: rest)) [] =
          map (fun tok => fst (step (e tok) s0)) r0 /\
        nth 1 (lstm_out (r0 :: r1 :: rest)) [] =
          map (fun p => fst (step (e (fst p)) (step (e (snd p)) s0)))
              (combine r1 r0)) /\
    lstm_out [[1; 2; 3; 4; 0; 0]; [1; 1; 1; 0; 0; 0]] =
      [[fst (step (e 1) s0); fst (step (e 2) s0); fst (step (e 3) s0);
        fst (step (e 4) s0); fst (step (e 0) s0); fst (step (e 0) s0)];
       [fst (step (e 1) (step (e 1) s0)); fst (step (e 1) (step (e 2) s0));
        fst (step (e 1) (step (e 3) s0)); fst (step (e 0) (step (e 4) s0));
        fst (step (e 0) (step (e 0) s0)); fst (step (e 0) (step (e 0) s0))]] /\
    map (map fst)
        (lstm_along_axis_1 step s0
           (embedding_lookup table [[1; 2; 3; 4; 0; 0]; [1; 1; 1; 0; 0; 0]])) =
      [[fst (step (e 1) s0);
        fst (step (e 2) (step (e 1) s0));
        fst (step (e 3) (step (e 2) (step (e 1) s0)));
        fst (step (e 4) (step (e 3) (step (e 2) (step (e 1) s0))));
        fst (step (e 0) (step (e 4) (step (e 3) (step (e 2) (step (e 1) s0)))));
        fst (step (e 0)
               (step (e 0) (step (e 4) (step (e 3) (step (e 2) (step (e 1) s0))))))];
       [fst (step (e 1) s0);
        fst (step (e 1) (step (e 1) s0));
        fst (step (e 1) (step (e 1) (step (e 1) s0)));
        fst (step (e 0) (step (e 1) (step (e 1) (step (e 1) s0))));
        fst (step (e 0) (step (e 0) (step (e 1) (step (e 1) (step (e 1) s0)))));
        fst (step (e 0)
               (step (e 0) (step (e 0) (step (e 1) (step (e 1) (step (e 1) s0))))))]].
Proof.
  intros A Sc N K self table step s0 e lstm_out.
  split; [|split; [|split]].
  - intros x.
    rewrite (@Sub_forward_unfold A Sc (torch_nn A) self x).
    rewrite normalize2_is_normalize, (@normalize_is_spec A Sc 1).
    reflexivity.
  - intros r0 r1 rest.
    unfold lstm_out, Pytorch.call_lstm, Pytorch.call_embed.
    cbn [LSTM_forward Embedding_forward torch_nn].
    unfold nn_LSTM_forward, lstm_along_axis_0, embedding_lookup.
    cbn [fst map ncols lstm_scan nth].
    fold table. fold e.
    rewrite !(combine_with_repeat
                (fun x st => lstm_step (Pytorch.weight_ih_l0 (Pytorch.lstm self))
                               (Pytorch.weight_hh_l0 (Pytorch.lstm self))
                               (Pytorch.bias_ih_l0 (Pytorch.lstm self))
                               (Pytorch.bias_hh_l0 (Pytorch.lstm self)) x st)).
    fold step. fold s0. split.
    + rewrite !map_map. reflexivity.
    + rewrite (map_map e (fun x => step x s0) r0).
      rewrite (combine_of_maps e (fun tok => step (e tok) s0) r1 r0).
      rewrite !map_map. reflexivity.
  - reflexivity.
  - reflexivity.
Qed.

(** *** The difference is observable *)

Section ExactKernel.
Local Open Scope R_scope.

Lemma sigmoid_0 : sigmoid 0 = / 2.
Proof. unfold sigmoid. rewrite Ropp_0, exp_0. lra. Qed.

Lemma tanh_0 : tanh 0 = 0.
Proof. unfold tanh. rewrite sinh_0, cosh_0. lra. Qed.

Lemma tanh_lt (x y : R) : x < y -> tanh x < tanh y.
Proof.
  intros Hxy. unfold tanh, sinh, cosh.
  pose proof (exp_pos x) as Ha. pose proof (exp_pos (- x)) as Ha'.
  pose proof (exp_pos y) as Hb. pose proof (exp_pos (- y)) as Hb'.
  pose proof (exp_increasing x y Hxy) as Hab.
  assert (Hb'a' : exp (- y) < exp (- x)) by (apply exp_increasing; lra).
  set (a := exp x) in *. set (a' := exp (- x)) in *.
  set (b := exp y) in *. set (b' := exp (- y)) in *.
  apply (proj1 (Rlt_0_minus _ _)).
  replace ((b - b') / 2 / ((b + b') / 2) - (a - a') / 2 / ((a + a') / 2))
    with (2 * (a' * b - a * b') / ((a + a') * (b + b'))) by (field; lra).
  apply Rdiv_lt_0_compat; nra.
Qed.

(** A one-unit LSTM whose cell gate reads the input and whose other weights
    and biases are zero: the cell state halves and takes half of [tanh x]. *)
Lemma one_unit_step (x h c : R) :
  lstm_step_exact [[0]; [0]; [1]; [0]] [[0]; [0]; [0]; [0]]
    [0; 0; 0; 0] [0; 0; 0; 0] [x] ([h], [c]) =
  ([/ 2 * tanh (/ 2 * c + / 2 * tanh x)], [/ 2 * c + / 2 * tanh x]).
Proof.
  unfold lstm_step_exact, affine, gate, zip_with, dot, sum_list.
  cbn.
  replace (0 + 0 * x + 0 + (0 + 0 * h + 0)) with 0 by ring.
  replace (0 + 1 * x + 0 + (0 + 0 * h + 0)) with x by ring.
  rewrite sigmoid_0. reflexivity.
Qed.

End ExactKernel.

(** With that LSTM, in exact arithmetic, and the embedding that sends token
    [k] to the number [k], the LSTM stage of [Sub.forward] on the notebook's
    batch is not what a recurrence along axis 1 gives: already the entry for
    the first sample's second token differs, because it has not seen the
    first token. *)
Example pytorch_lstm_stage_differs_from_time_axis_recurrence :
  let table : tensor R 1 := [[0%R]; [1%R]; [2%R]; [3%R]; [4%R]] in
  let L : Pytorch.LSTM R :=
    {| Pytorch.weight_ih_l0 := [[0%R]; [0%R]; [1%R]; [0%R]];
       Pytorch.weight_hh_l0 := [[0%R]; [0%R]; [0%R]; [0%R]];
       Pytorch.bias_ih_l0 := [0%R; 0%R; 0%R; 0%R];
       Pytorch.bias_hh_l0 := [0%R; 0%R; 0%R; 0%R] |} in
  let self := Pytorch.Sub_init 5 1 {| Pytorch.weight := table |} L in
  let x : list (list nat) := [[1; 2; 3; 4; 0; 0]; [1; 1; 1; 0; 0; 0]] in
  fst (@Pytorch.call_lstm R (@torch_nn R R_scalar R_of_nat exact_kernel)
         (Pytorch.lstm self)
         (@Pytorch.call_embed R (@torch_nn R R_scalar R_of_nat exact_kernel)
            (Pytorch.embed self) x)) <>
  map (map fst)
      (lstm_along_axis_1
         (lstm_step_exact (Pytorch.weight_ih_l0 L) (Pytorch.weight_hh_l0 L)
            (Pytorch.bias_ih_l0 L) (Pytorch.bias_hh_l0 L))
         (lstm_zero_state (Pytorch.weight_hh_l0 L))
         (embedding_lookup table x)).
Proof.
  intros table L self x Heq.
  apply (f_equal (fun m => nth 1 (nth 0 m []) [])) in Heq.
  cbn [fst Pytorch.call_lstm Pytorch.call_embed LSTM_forward Embedding_forward
       torch_nn Pytorch.lstm Pytorch.embed Pytorch.Sub_init Pytorch.weight
       Pytorch.weight_ih_l0 Pytorch.weight_hh_l0 Pytorch.bias_ih_l0
       Pytorch.bias_hh_l0 self L table x] in Heq.
  unfold nn_LSTM_forward, lstm_along_axis_0, lstm_along_axis_1,
    embedding_lookup, lstm_zero_state in Heq.
  unfold x, table in Heq.
  cbn [fst snd map ncols length repeat combine lstm_scan scan_states nth
       lstm_step exact_kernel s_zero R_scalar] in Heq.
  rewrite !one_unit_step in Heq.
  cbn [fst snd map nth] in Heq.
  injection Heq as Heq.
  assert (Hlt : (/ 2 * 0 + / 2 * tanh 2 <
                 / 2 * (/ 2 * 0 + / 2 * tanh 1) + / 2 * tanh 2)%R).
  { assert (H1 : (0 < 1)%R) by lra.
    apply tanh_lt in H1. rewrite tanh_0 in H1. lra. }
  apply tanh_lt in Hlt. lra.
Qed.

(** C5: [Siamese.forward(x1, x2)] is [cosine_similarity] of the two
    encodings [sub(x1)] and [sub(x2)]. *)
Theorem siamese_forward_is_cosine_of_encodings :
  forall (A : Type) (Sc : Scalar A) (T : TorchLibrary A)
         (self : Pytorch.Siamese A) (x1 x2 : tokens),
    Pytorch.Siamese_forward self x1 x2 =
    cosine_similarity (Pytorch.Sub_forward (Pytorch.sub self) x1)
                      (Pytorch.Sub_forward (Pytorch.sub self) x2).
Proof.
  intros A Sc T self x1 x2. apply Siamese_forward_unfold.
Qed.

(** C2: both branches of the PyTorch model go through the one [Sub] module
    the [Siamese] module holds, whatever its weights, and its named
    parameters are one embedding table and one set of LSTM weights; the Trax
    [Parallel] object has the same [Serial] object as both of its sublayers,
    so running it on two equal inputs gives two equal encodings. *)
Theorem siamese_branches_share_weights :
  (forall (A : Type) (Sc : Scalar A) (T : TorchLibrary A) (m : Pytorch.Siamese A),
      (forall x1 x2 : tokens,
          Pytorch.Siamese_forward m x1 x2 =
          cosine_similarity (Pytorch.Sub_forward (Pytorch.sub m) x1)
                            (Pytorch.Sub_forward (Pytorch.sub m) x2)) /\
      map fst (Pytorch.Siamese_named_parameters m) =
        ["sub.embed.weight"; "sub.lstm.weight_ih_l0"; "sub.lstm.weight_hh_l0";
         "sub.lstm.bias_ih_l0"; "sub.lstm.bias_hh_l0"]%string /\
      map snd (Pytorch.Siamese_named_parameters m) =
        [Pytorch.Param 1 (Pytorch.weight (Pytorch.embed (Pytorch.sub m)));
         Pytorch.Param 1 (Pytorch.weight_ih_l0 (Pytorch.lstm (Pytorch.sub m)));
         Pytorch.Param 1 (Pytorch.weight_hh_l0 (Pytorch.lstm (Pytorch.sub m)));
         Pytorch.Param 0 (Pytorch.bias_ih_l0 (Pytorch.lstm (Pytorch.sub m)));
         Pytorch.Param 0 (Pytorch.bias_hh_l0 (Pytorch.lstm (Pytorch.sub m)))]) /\
  (forall (A : Type) (Sc : Scalar A) (T : TraxLibrary A) (h : Trax.heap A),
      let LSTM := fst (fst (Trax.build h)) in
      let Siamese := snd (fst (Trax.build h)) in
      let h' := snd (Trax.build h) in
      nth_error h' Siamese = Some (Trax.Parallel [LSTM; LSTM]) /\
      exists enc : (Trax.ref -> layer_weights) -> token_batch -> tensor A 1,
        forall (ws : Trax.ref -> layer_weights) (x1 x2 : token_batch) (fuel : nat),
          Trax.apply (3 + fuel) h' ws Siamese
            (Trax.V_tuple [Trax.V_tokens x1; Trax.V_tokens x2]) =
          Some (Trax.V_tuple [Trax.V_rank2 (enc ws x1); Trax.V_rank2 (enc ws x2)])).
Proof.
  split.
  - intros A Sc T m. split; [|split].
    + intros x1 x2. apply Siamese_forward_unfold.
    + apply Siamese_parameter_names.
    + apply Siamese_parameter_values.
  - intros A Sc T h. rewrite build_result. cbn [fst snd]. split.
    + rewrite (built_lookup h 5). reflexivity.
    + exists (fun ws x =>
                normalize
                  (Mean_apply 1
                     (LSTM_apply (ws (1 + length h)) Trax.model_dimension
                        (Embedding_apply (ws (length h)) Trax.vocab_size
                           Trax.model_dimension x)))).
      intros ws x1 x2 fuel.
      change (3 + fuel) with (S (S (S fuel))).
      rewrite apply_built_Parallel, !apply_built_Serial. reflexivity.
Qed.

(** ** The layer listing *)

Section ShowLayers.
Context {A : Type}.
Import Trax.

Lemma nth_error_middle (X : Type) (done rest : list X) (r : X) :
  nth_error (done ++ r :: rest) (length done) = Some r.
Proof.
  rewrite nth_error_app2 by lia. now rewrite Nat.sub_diag.
Qed.

(** One iteration of the loop. *)
Lemma show_layer_step (h : heap A) (out : list string) (model : ref) (l : layer A)
  (layer_prefix : string) (done rest : list ref) (r : ref) :
  nth_error h model = Some l ->
  sublayers l = done ++ r :: rest ->
  show_layer model layer_prefix (length done) {| objects := h; stdout := out |} =
  (Some tt,
   {| objects := h;
      stdout := out ++ layer_entry h layer_prefix (length done, r) |}).
Proof.
  intros Hm Hs.
  unfold show_layer, io_bind, print, get_sublayers, index, str.
  cbn [objects stdout]. rewrite Hm, Hs, nth_error_middle.
  cbn [objects stdout]. rewrite <- app_assoc. reflexivity.
Qed.

(** The loop, from any index on. *)
Lemma show_layers_loop (h : heap A) (model : ref) (l : layer A)
  (layer_prefix : string) (rest done : list ref) (out : list string) :
  nth_error h model = Some l ->
  sublayers l = done ++ rest ->
  for_each (seq (length done) (length rest)) (show_layer model layer_prefix)
    {| objects := h; stdout := out |} =
  (Some tt,
   {| objects := h;
      stdout := out ++ concat (map (layer_entry h layer_prefix)
                                   (combine (seq (length done) (length rest)) rest)) |}).
Proof.
  intros Hm. revert done out.
  induction rest as [|r rest IH]; intros done out Hs.
  - cbn. now rewrite app_nil_r.
  - cbn [length seq for_each combine map concat].
    unfold io_bind at 1.
    rewrite (@show_layer_step h out model l layer_prefix done rest r Hm Hs).
    specialize (IH (done ++ [r]) (out ++ layer_entry h layer_prefix (length done, r))).
    rewrite length_app in IH. cbn [length] in IH.
    replace (length done + 1) with (S (length done)) in IH by lia.
    rewrite IH by (rewrite <- app_assoc; exact Hs).
    now rewrite <- app_assoc.
Qed.

Lemma show_layers_run (h : heap A) (out : list string) (model : ref) (l : layer A)
  (layer_prefix : string) :
  nth_error h model = Some l ->
  show_layers model layer_prefix {| objects := h; stdout := out |} =
  (Some tt,
   {| objects := h;
      stdout := out ++
                total_line (length (sublayers l)) ::
                concat (map (layer_entry h layer_prefix)
                            (combine (seq 0 (length (sublayers l))) (sublayers l))) |}).
Proof.
  intros Hm.
  unfold show_layers, io_bind, get_sublayers, print, for_range.
  cbn [objects stdout]. rewrite Hm. cbn [objects stdout]. rewrite Hm.
  rewrite (@show_layers_loop h model l layer_prefix (sublayers l) [] _ Hm eq_refl).
  cbn [length]. rewrite <- app_assoc. reflexivity.
Qed.

End ShowLayers.

(** C8 (as amended): for every model object and prefix, [show_layers]
    completes, leaves the object store as it was, and appends to the output
    first the line with the count of sublayers and then, for each sublayer in
    index order, a separator line followed by one line labelled with the
    prefix and the index; nothing else. *)
Theorem show_layers_output :
  forall (A : Type) (h : Trax.heap A) (out : list string)
         (model : Trax.ref) (l : Trax.layer A) (layer_prefix : string),
    nth_error h model = Some l ->
    Trax.show_layers model layer_prefix {| Trax.objects := h; Trax.stdout := out |} =
    (Some tt,
     {| Trax.objects := h;
        Trax.stdout :=
          out ++
          Trax.total_line (length (Trax.sublayers l)) ::
          concat
            (map (fun ir =>
                    [Trax.separator_line;
                     Trax.labelled_line h layer_prefix (fst ir) (snd ir)])
                 (combine (seq 0 (length (Trax.sublayers l))) (Trax.sublayers l))) |}).
Proof.
  intros A h out model l layer_prefix Hm.
  exact (@show_layers_run A h out model l layer_prefix Hm).
Qed.

Lemma show_layers_output_witness :
  let h : Trax.heap R := snd (Trax.build []) in
  nth_error h 5 = Some (Trax.Parallel [4; 4]) /\
  Trax.show_layers 5 "Parallel.sublayers" {| Trax.objects := h; Trax.stdout := [] |} =
  (Some tt,
   {| Trax.objects := h;
      Trax.stdout :=
        [Trax.total_line 2;
         Trax.separator_line;
         Trax.labelled_line h "Parallel.sublayers" 0 4;
         Trax.separator_line;
         Trax.labelled_line h "Parallel.sublayers" 1 4] |}).
Proof.
  intros h. split; [reflexivity|].
  exact (@show_layers_output R h [] 5%nat (Trax.Parallel [4; 4])
           "Parallel.sublayers"%string eq_refl).
Defined.

(** C8 as stated fails on the notebook's own model: between the count and
    the first labelled line, and before every further labelled line,
    [show_layers] writes a separator line that carries neither the prefix nor
    an index, so the output is not the count followed by one labelled line
    per sublayer. *)
Lemma show_layers_prints_separators :
  let h : Trax.heap R := snd (Trax.build []) in
  let w := snd (Trax.show_layers 5 "Parallel.sublayers"
                  {| Trax.objects := h; Trax.stdout := [] |}) in
  nth_error (Trax.stdout w) 1 = Some (Trax.printed "========") /\
  length (Trax.stdout w) = 5 /\
  Trax.stdout w <>
    [Trax.total_line 2;
     Trax.labelled_line h "Parallel.sublayers" 0 4;
     Trax.labelled_line h "Parallel.sublayers" 1 4].
Proof.
  repeat split; try reflexivity.
  vm_compute. discriminate.
Qed.

(** ** The notebook's own runs *)

(** The cell that calls [show_layers] on the two Trax models writes what the
    notebook records as its output. *)
Example show_cell_recorded_output :
  let h : Trax.heap float32 := snd (Trax.build []) in
  String.concat ""
    (Trax.stdout (snd (Trax.show_cell 4 5 {| Trax.objects := h; Trax.stdout := [] |}))) =
"Siamese model:

Total layers: 2

========
Parallel.sublayers_0: Serial[
  Embedding_500_128
  LSTM_128
  Mean
  Normalize
]

========
Parallel.sublayers_1: Serial[
  Embedding_500_128
  LSTM_128
  Mean
  Normalize
]

Detail of LSTM models:

Total layers: 4

========
Serial.sublayers_0: Embedding_500_128

========
Serial.sublayers_1: LSTM_128

========
Serial.sublayers_2: Mean

========
Serial.sublayers_3: Normalize

"%string.
Proof. vm_compute. reflexivity. Qed.

(** The model cell, run in an empty store, binds [LSTM] to object 4 and
    [Siamese] to object 5. *)
Example build_from_empty_store :
  fst (Trax.build (A := float32) []) = (4, 5).
Proof. reflexivity. Qed.

(** A freshly constructed [Siamese] lists as parameters the arrays its one
    [Sub] was initialised with. *)
Example Siamese_init_parameters (A : Type) (e : Pytorch.Embedding A) (l : Pytorch.LSTM A) :
  map snd (Pytorch.Siamese_named_parameters (Pytorch.Siamese_init 5 3 e l)) =
  [Pytorch.Param 1 (Pytorch.weight e);
   Pytorch.Param 1 (Pytorch.weight_ih_l0 l);
   Pytorch.Param 1 (Pytorch.weight_hh_l0 l);
   Pytorch.Param 0 (Pytorch.bias_ih_l0 l);
   Pytorch.Param 0 (Pytorch.bias_hh_l0 l)].
Proof. reflexivity. Qed.

(** With two entries the order of the summation is immaterial: adding the
    squares of [normalize (1, 1)] in the other order gives the same float32
    number below 1. *)
Example float32_sum_order_immaterial :
  let n : tensor float32 0 := normalize (k := 0) [f32 1; f32 1] in
  s_add (s_mul (nth 1 n s_zero) (nth 1 n s_zero))
        (s_mul (nth 0 n s_zero) (nth 0 n s_zero)) =
  sum_of_squares n.
Proof. vm_compute. reflexivity. Qed.

(** The same input in float64: the sum of squares is 1 - 2^-52. *)
Example normalize_unit_length_float64 :
  let one := @s_one spec_float binary64 in
  @sum_of_squares spec_float binary64 (@normalize spec_float binary64 0 [one; one]) =
    S754_finite false 9007199254740990 (-53) /\
  @sum_of_squares spec_float binary64 (@normalize spec_float binary64 0 [one; one]) <> one.
Proof. split; vm_compute; [reflexivity | discriminate]. Qed.

(** In float32 a vector whose squares overflow is sent to zero, not to a
    unit vector: (2^100) has norm 2^100, its square is infinite. *)
Example normalize_overflow_float32 :
  let big : float32 := binary_normalize 24 128 1 100 false in
  l2norm [big] = S754_infinity false /\
  normalize (k := 0) [big] = [S754_zero false].
Proof. split; vm_compute; reflexivity. Qed.

(* ================================================================== *)
(** * Part III: further properties of the notebook's functions *)
(* ================================================================== *)

(** ** Slices are normalized independently *)

(** In any arithmetic, normalizing two batches laid end to end along the
    first axis gives the two normalized batches laid end to end: no slice
    influences another. *)
Theorem normalize_batch_concat :
  forall (A : Type) (Sc : Scalar A) (k : nat) (x y : tensor A (S k)),
    normalize (k := S k) (x ++ y) = normalize (k := S k) x ++ normalize (k := S k) y /\
    normalize2 (k := S k) (x ++ y) = normalize2 (k := S k) x ++ normalize2 (k := S k) y.
Proof.
  intros A Sc k x y.
  assert (Hn : normalize (k := S k) (x ++ y) =
               normalize (k := S k) x ++ normalize (k := S k) y).
  { rewrite !normalize_outer. apply map_app. }
  split; [exact Hn|].
  rewrite !normalize2_is_normalize. exact Hn.
Qed.

(** ** Float32: special values *)

Section Float32Facts.

Lemma tmap_last_ext (A : Type) (f g : list A -> list A) (k : nat) (x : tensor A k) :
  (forall row, f row = g row) -> tmap_last f k x = tmap_last g k x.
Proof.
  intros Hfg. induction k as [|k IH]; simpl.
  - apply Hfg.
  - apply map_ext. intros y. apply IH.
Qed.

Lemma sum_with_nan (l : list float32) (acc : float32) :
  In S754_nan l -> fold_left s_add l acc = S754_nan.
Proof.
  revert acc. induction l as [|a l IH]; intros acc Hin; [destruct Hin|].
  cbn [fold_left]. destruct Hin as [-> | Hin].
  - replace (s_add acc S754_nan) with S754_nan by (destruct acc; reflexivity).
    apply sum_from_nan.
  - apply IH, Hin.
Qed.

Lemma l2norm_with_nan (row : list float32) :
  In S754_nan row -> l2norm row = S754_nan.
Proof.
  intros Hin. unfold l2norm, sum_of_squares, sum_list.
  rewrite sum_with_nan; [reflexivity|].
  change S754_nan with ((fun a : float32 => s_mul a a) S754_nan).
  apply in_map, Hin.
Qed.

Lemma divide_by_nan (row : list float32) :
  l2norm row = S754_nan -> divide_by_norm row = map (fun _ => S754_nan) row.
Proof.
  intros Hn. unfold divide_by_norm. rewrite Hn.
  apply map_ext. intros a. destruct a; reflexivity.
Qed.

Lemma xorb_false_r' (s : bool) : xorb s false = s.
Proof. destruct s; reflexivity. Qed.

Lemma divide_by_infinity (row : list float32) :
  l2norm row = S754_infinity false -> divide_by_norm row = map over_infinity row.
Proof.
  intros Hn. unfold divide_by_norm. rewrite Hn.
  apply map_ext. intros a.
  destruct a as [s | s | | s m e]; cbn; rewrite ?xorb_false_r'; reflexivity.
Qed.

Lemma divide_by_zero (row : list float32) :
  l2norm row = S754_zero false -> divide_by_norm row = map over_zero row.
Proof.
  intros Hn. unfold divide_by_norm. rewrite Hn.
  apply map_ext. intros a.
  destruct a as [s | s | | s m e]; cbn; rewrite ?xorb_false_r'; reflexivity.
Qed.

End Float32Facts.

(** In float32, a NaN anywhere in a slice along the last axis turns the whole
    of that slice of [normalize], and of [normalize2], into NaN. *)
Theorem normalize_nan_poisons_slice :
  forall (k : nat) (x : tensor float32 k) (i : nat) (row : list float32),
    nth_error (rows k x) i = Some row ->
    In S754_nan row ->
    nth_error (rows k (normalize x)) i = Some (map (fun _ => S754_nan) row) /\
    nth_error (rows k (normalize2 x)) i = Some (map (fun _ => S754_nan) row).
Proof.
  intros k x i row Hi Hin.
  assert (Hn : nth_error (rows k (normalize x)) i = Some (map (fun _ => S754_nan) row)).
  { rewrite rows_normalize, nth_error_map, Hi. cbn [option_map].
    now rewrite (divide_by_nan row (l2norm_with_nan row Hin)). }
  split; [exact Hn|].
  rewrite normalize2_is_normalize. exact Hn.
Qed.

Lemma normalize_nan_poisons_slice_witness :
  let x : tensor float32 1 := [[f32 3; f32 4]; [f32 1; S754_nan; f32 2]] in
  nth_error (rows 1 x) 1 = Some [f32 1; S754_nan; f32 2] /\
  In S754_nan [f32 1; S754_nan; f32 2] /\
  nth_error (rows 1 (normalize x)) 1 = Some [S754_nan; S754_nan; S754_nan] /\
  nth_error (rows 1 (normalize2 x)) 1 = Some [S754_nan; S754_nan; S754_nan].
Proof.
  intros x.
  assert (Hin : In S754_nan [f32 1; S754_nan; f32 2]) by (right; left; reflexivity).
  split; [reflexivity|]. split; [exact Hin|].
  exact (@normalize_nan_poisons_slice 1 x 1%nat [f32 1; S754_nan; f32 2] eq_refl Hin).
Defined.

(** In float32, when the sum of the squares of a slice overflows, so that the
    computed norm is +infinity, [normalize] and [normalize2] return for that
    slice a zero of the entry's sign in place of every finite entry (and NaN
    in place of an infinite one): a zero vector, not a unit vector. *)
Theorem normalize_overflow_gives_zeros :
  forall (k : nat) (x : tensor float32 k) (i : nat) (row : list float32),
    nth_error (rows k x) i = Some row ->
    l2norm row = S754_infinity false ->
    nth_error (rows k (normalize x)) i = Some (map over_infinity row) /\
    nth_error (rows k (normalize2 x)) i = Some (map over_infinity row).
Proof.
  intros k x i row Hi Hinf.
  assert (Hn : nth_error (rows k (normalize x)) i = Some (map over_infinity row)).
  { rewrite rows_normalize, nth_error_map, Hi. cbn [option_map].
    now rewrite (divide_by_infinity row Hinf). }
  split; [exact Hn|].
  rewrite normalize2_is_normalize. exact Hn.
Qed.

Lemma normalize_overflow_gives_zeros_witness :
  let big : float32 := binary_normalize 24 128 1 100 false in
  let x : tensor float32 0 := [big; SFopp (f32 1)] in
  nth_error (rows 0 x) 0 = Some x /\
  l2norm x = S754_infinity false /\
  nth_error (rows 0 (normalize x)) 0 = Some [S754_zero false; S754_zero true] /\
  nth_error (rows 0 (normalize2 x)) 0 = Some [S754_zero false; S754_zero true].
Proof.
  intros big x.
  assert (Hinf : l2norm x = S754_infinity false) by (vm_compute; reflexivity).
  split; [reflexivity|]. split; [exact Hinf|].
  exact (@normalize_overflow_gives_zeros 0 x 0%nat x eq_refl Hinf).
Defined.

(** In float32, when the squares of a slice of zeros and normal numbers
    underflow, so that the computed norm is +0, [normalize] and [normalize2]
    return for that slice an infinity of the entry's sign in place of every
    nonzero entry, and NaN in place of a zero.  (Subnormal entries are left
    out: a backend that flushes them to zero divides zero by zero there.) *)
Theorem normalize_underflow_gives_infinities :
  forall (k : nat) (x : tensor float32 k) (i : nat) (row : list float32),
    nth_error (rows k x) i = Some row ->
    Forall zero_or_normal row ->
    l2norm row = S754_zero false ->
    nth_error (rows k (normalize x)) i = Some (map over_zero row) /\
    nth_error (rows k (normalize2 x)) i = Some (map over_zero row).
Proof.
  intros k x i row Hi _ Hzero.
  assert (Hn : nth_error (rows k (normalize x)) i = Some (map over_zero row)).
  { rewrite rows_normalize, nth_error_map, Hi. cbn [option_map].
    now rewrite (divide_by_zero row Hzero). }
  split; [exact Hn|].
  rewrite normalize2_is_normalize. exact Hn.
Qed.

Lemma normalize_underflow_gives_infinities_witness :
  let tiny : float32 := S754_finite false 8388608 (-123) in
  let x : tensor float32 0 := [tiny; SFopp tiny; f32 0] in
  nth_error (rows 0 x) 0 = Some x /\
  Forall zero_or_normal x /\
  l2norm x = S754_zero false /\
  nth_error (rows 0 (normalize x)) 0 =
    Some [S754_infinity false; S754_infinity true; S754_nan] /\
  nth_error (rows 0 (normalize2 x)) 0 =
    Some [S754_infinity false; S754_infinity true; S754_nan].
Proof.
  intros tiny x.
  assert (Hnormal : Forall zero_or_normal x).
  { repeat constructor; cbn; lia. }
  assert (Hzero : l2norm x = S754_zero false) by (vm_compute; reflexivity).
  split; [reflexivity|]. split; [exact Hnormal|]. split; [exact Hzero|].
  exact (@normalize_underflow_gives_infinities 0 x 0%nat x eq_refl Hnormal Hzero).
Defined.

(** ** Float32: signs *)

Section Float32Signs.

(** Rounding keeps the sign it is given. *)
Lemma round_sign (s : bool) (m e : Z) (l : location) :
  binary_round_aux 24 128 s m e l = S754_nan \/
  sign_bit (binary_round_aux 24 128 s m e l) = Some s.
Proof.
  unfold binary_round_aux.
  destruct (shr_fexp 24 128 m e l) as [mrs' e'].
  destruct (shr_fexp 24 128 _ e' loc_Exact) as [mrs'' e''].
  destruct (shr_m mrs'') as [|p|p].
  - right. reflexivity.
  - destruct (Z.leb e'' (128 - 24)); right; reflexivity.
  - left. reflexivity.
Qed.

Lemma round_opp (s : bool) (m e : Z) (l : location) :
  binary_round_aux 24 128 (negb s) m e l = SFopp (binary_round_aux 24 128 s m e l).
Proof.
  unfold binary_round_aux.
  destruct (shr_fexp 24 128 m e l) as [mrs' e'].
  destruct (shr_fexp 24 128 _ e' loc_Exact) as [mrs'' e''].
  destruct (shr_m mrs'') as [|p|p]; [reflexivity| |reflexivity].
  destruct (Z.leb e'' (128 - 24)); reflexivity.
Qed.

Lemma square_not_negative (a : float32) : not_negative (s_mul a a).
Proof.
  destruct a as [s | s | | s m e]; cbn.
  - right. destruct s; reflexivity.
  - right. destruct s; reflexivity.
  - left. reflexivity.
  - replace (xorb s s) with false by (destruct s; reflexivity).
    apply round_sign.
Qed.

Lemma add_not_negative (a b : float32) :
  not_negative a -> not_negative b -> not_negative (s_add a b).
Proof.
  intros [-> | Ha] [-> | Hb]; try (left; destruct a; reflexivity);
    try (left; reflexivity).
  destruct a as [sa | sa | | sa ma ea]; try discriminate Ha;
    destruct b as [sb | sb | | sb mb eb]; try discriminate Hb;
    cbn in Ha, Hb; injection Ha as ->; injection Hb as ->;
    try (right; reflexivity).
  cbn [s_add binary32 ieee_scalar]. unfold SFadd, cond_Zopp.
  cbn [Z.add]. unfold binary_normalize, binary_round.
  destruct (shl_align _ _ _) as [mz ez].
  apply round_sign.
Qed.

Lemma sqrt_not_negative (a : float32) :
  not_negative a -> not_negative (s_sqrt a).
Proof.
  intros [-> | Ha]; [left; reflexivity|].
  destruct a as [s | s | | s m e]; try discriminate Ha;
    cbn in Ha; injection Ha as ->.
  - right. reflexivity.
  - right. reflexivity.
  - cbn [s_sqrt binary32 ieee_scalar]. unfold SFsqrt.
    destruct (SFsqrt_core_binary 24 128 (Z.pos m) e) as [[mz ez] lz].
    apply round_sign.
Qed.

Lemma sum_not_negative (l : list float32) (acc : float32) :
  not_negative acc -> Forall not_negative l -> not_negative (fold_left s_add l acc).
Proof.
  intros Hacc Hl. revert acc Hacc.
  induction Hl as [|a l Ha _ IH]; intros acc Hacc; cbn [fold_left].
  - exact Hacc.
  - apply IH, add_not_negative; assumption.
Qed.

(** The computed norm is never negative. *)
Lemma l2norm_not_negative (row : list float32) : not_negative (l2norm row).
Proof.
  unfold l2norm, sum_of_squares, sum_list.
  apply sqrt_not_negative, sum_not_negative.
  - right. reflexivity.
  - apply Forall_forall. intros b Hb. apply in_map_iff in Hb.
    destruct Hb as [a [<- _]]. apply square_not_negative.
Qed.

Lemma div_keeps_sign (a d : float32) :
  not_negative d ->
  s_div a d = S754_nan \/ sign_bit (s_div a d) = sign_bit a.
Proof.
  intros [-> | Hd]; [left; destruct a; reflexivity|].
  destruct d as [sd | sd | | sd md ed]; try discriminate Hd;
    cbn in Hd; injection Hd as ->;
    destruct a as [sa | sa | | sa ma ea]; cbn;
    rewrite ?xorb_false_r'; try (left; reflexivity); try (right; reflexivity).
  destruct (SFdiv_core_binary 24 128 (Z.pos ma) ea (Z.pos md) ed) as [[mz ez] lz].
  apply round_sign.
Qed.

Lemma square_of_opp (a : float32) : s_mul (SFopp a) (SFopp a) = s_mul a a.
Proof.
  destruct a as [s | s | | s m e]; cbn; try reflexivity;
    destruct s; reflexivity.
Qed.

Lemma div_of_opp (a d : float32) : s_div (SFopp a) d = SFopp (s_div a d).
Proof.
  destruct a as [sa | sa | | sa ma ea], d as [sd | sd | | sd md ed]; cbn;
    try reflexivity;
    try (destruct sa, sd; reflexivity).
  destruct (SFdiv_core_binary 24 128 (Z.pos ma) ea (Z.pos md) ed) as [[mz ez] lz].
  replace (xorb (negb sa) sd) with (negb (xorb sa sd)) by (destruct sa, sd; reflexivity).
  apply round_opp.
Qed.

Lemma l2norm_of_opp (row : list float32) : l2norm (map SFopp row) = l2norm row.
Proof.
  unfold l2norm, sum_of_squares. rewrite map_map.
  rewrite (map_ext (fun x => s_mul (SFopp x) (SFopp x)) (fun a => s_mul a a)
             square_of_opp).
  reflexivity.
Qed.

Lemma divide_by_norm_of_opp (row : list float32) :
  divide_by_norm (map SFopp row) = map SFopp (divide_by_norm row).
Proof.
  unfold divide_by_norm. rewrite l2norm_of_opp, !map_map.
  apply map_ext. intros a. apply div_of_opp.
Qed.

Lemma divide_by_norm_signs (row : list float32) :
  Forall2 (fun a b => b = S754_nan \/ sign_bit b = sign_bit a)
          row (divide_by_norm row).
Proof.
  unfold divide_by_norm.
  generalize (l2norm_not_negative row). generalize (l2norm row). intros d Hd.
  induction row as [|a row IH]; cbn [map]; constructor.
  - apply div_keeps_sign, Hd.
  - exact IH.
Qed.

End Float32Signs.

(** In float32, [normalize] and [normalize2] never change a sign: every
    entry of the result is NaN or has the sign bit of the entry it comes
    from, in every slice of an array of any rank. *)
Theorem normalize_keeps_signs :
  forall (k : nat) (x : tensor float32 k),
    Forall2 (Forall2 (fun a b => b = S754_nan \/ sign_bit b = sign_bit a))
            (rows k x) (rows k (normalize x)) /\
    Forall2 (Forall2 (fun a b => b = S754_nan \/ sign_bit b = sign_bit a))
            (rows k x) (rows k (normalize2 x)).
Proof.
  intros k x.
  assert (Hn : Forall2 (Forall2 (fun a b => b = S754_nan \/ sign_bit b = sign_bit a))
                       (rows k x) (rows k (normalize x))).
  { rewrite rows_normalize.
    induction (rows k x) as [|row l IH]; cbn [map]; constructor.
    - apply divide_by_norm_signs.
    - exact IH. }
  split; [exact Hn|].
  rewrite normalize2_is_normalize. exact Hn.
Qed.

(** In float32, [normalize] and [normalize2] are odd: negating every entry
    of the input negates every entry of the result, where the negation of
    NaN is NaN.  So an entry of the result that is not NaN keeps its
    magnitude exactly and changes its sign, and an entry that is NaN stays
    NaN; which sign or payload a NaN carries is not part of the model. *)
Theorem normalize_of_negation :
  forall (k : nat) (x : tensor float32 k),
    normalize (tensor_neg x) = tensor_neg (normalize x) /\
    normalize2 (tensor_neg x) = tensor_neg (normalize2 x).
Proof.
  intros k x.
  assert (Hn : normalize (tensor_neg x) = tensor_neg (normalize x)).
  { rewrite !normalize_is_spec. unfold normalize_spec, tensor_neg.
    rewrite !tmap_last_compose. apply tmap_last_ext.
    intros row. apply divide_by_norm_of_opp. }
  split; [exact Hn|].
  rewrite !normalize2_is_normalize. exact Hn.
Qed.

(** ** Swapping the arguments of the similarity *)

Section SwapFacts.
Context {A : Type} `{Scalar A}.
Hypothesis mul_comm : forall a b : A, s_mul a b = s_mul b a.

Lemma dot_comm (u v : list A) : dot u v = dot v u.
Proof.
  unfold dot. f_equal.
  revert v. induction u as [|a u IH]; intros [|b v]; cbn [combine map fst snd];
    try reflexivity.
  now rewrite IH, mul_comm.
Qed.

Lemma cosine_similarity_swapped (m n d : nat) (x1 x2 : tensor A 1) :
  is_matrix m d x1 -> is_matrix n d x2 -> 0 < d -> 0 < m ->
  cosine_similarity x2 x1 = transpose (cosine_similarity x1 x2).
Proof.
  intros H1 H2 Hd Hm.
  rewrite (@cosine_similarity_rows A _ m d x2 x1 H1 Hd).
  rewrite (@cosine_similarity_rows A _ n d x1 x2 H2 Hd).
  unfold transpose.
  assert (Hc : ncols (map (fun u => map (fun v => dot u v) x2) x1) = length x2).
  { destruct x1 as [|u0 x1']; [destruct H1 as [H1 _]; simpl in H1; lia|].
    cbn [map ncols]. apply length_map. }
  rewrite Hc.
  transitivity (map (fun j => map (fun c => dot (nth j x2 []) c) x1)
                    (seq 0 (length x2))).
  - rewrite <- (map_map (fun j => nth j x2 []) (fun v => map (fun c => dot v c) x1)).
    now rewrite map_nth_seq.
  - apply map_ext_in. intros j Hj. apply in_seq in Hj.
    rewrite map_map. apply map_ext. intros u.
    rewrite (nth_map_in_range (fun v => dot u v) x2 [] s_zero (proj2 Hj)).
    apply dot_comm.
Qed.

End SwapFacts.

Lemma float32_mul_comm (a b : float32) : s_mul a b = s_mul b a.
Proof.
  destruct a as [sa | sa | | sa ma ea], b as [sb | sb | | sb mb eb]; cbn;
    try reflexivity;
    try (destruct sa, sb; reflexivity).
  now rewrite (xorb_comm sa sb), (Pos.mul_comm ma mb), (Z.add_comm ea eb).
Defined.

(** In any arithmetic whose product is commutative (float32 is one),
    exchanging the two arguments of [cosine_similarity] transposes the
    result. *)
Theorem cosine_similarity_swap :
  forall (A : Type) (Sc : Scalar A) (m n d : nat) (x1 x2 : tensor A 1),
    (forall a b : A, s_mul a b = s_mul b a) ->
    is_matrix m d x1 -> is_matrix n d x2 -> 0 < d -> 0 < m ->
    cosine_similarity x2 x1 = transpose (cosine_similarity x1 x2).
Proof.
  intros A Sc m n d x1 x2 Hcomm H1 H2 Hd Hm.
  exact (@cosine_similarity_swapped A Sc Hcomm m n d x1 x2 H1 H2 Hd Hm).
Qed.

Lemma cosine_similarity_swap_witness :
  let x1 : tensor float32 1 := [[f32 1; f32 2]] in
  let x2 : tensor float32 1 := [[f32 3; f32 4]; [f32 5; f32 6]] in
  (forall a b : float32, s_mul a b = s_mul b a) /\
  is_matrix 1 2 x1 /\ is_matrix 2 2 x2 /\ 0 < 2 /\ 0 < 1 /\
  cosine_similarity x2 x1 = transpose (cosine_similarity x1 x2).
Proof.
  intros x1 x2.
  assert (H1 : is_matrix 1 2 x1) by (split; [reflexivity | repeat constructor]).
  assert (H2 : is_matrix 2 2 x2) by (split; [reflexivity | repeat constructor]).
  assert (Hd : 0 < 2) by lia.
  assert (Hm : 0 < 1) by lia.
  split; [exact float32_mul_comm|].
  repeat (split; [assumption|]).
  exact (@cosine_similarity_swap float32 binary32 1%nat 2%nat 2%nat x1 x2
           float32_mul_comm H1 H2 Hd Hm).
Defined.

(** ** The cell that lists both models *)

(** For every store in which both variables refer to layer objects, the
    cell completes, leaves the store as it was, and appends to the output
    the title and listing of [Siamese] followed by the title and listing of
    [LSTM], in that order. *)
Theorem show_cell_output :
  forall (A : Type) (h : Trax.heap A) (out : list string)
         (LSTM Siamese : Trax.ref) (l1 l2 : Trax.layer A),
    nth_error h LSTM = Some l1 ->
    nth_error h Siamese = Some l2 ->
    Trax.show_cell LSTM Siamese {| Trax.objects := h; Trax.stdout := out |} =
    (Some tt,
     {| Trax.objects := h;
        Trax.stdout :=
          out ++
          (Trax.printed ("Siamese model:" ++ Trax.nl) ::
           Trax.total_line (length (Trax.sublayers l2)) ::
           concat (map (Trax.layer_entry h "Parallel.sublayers")
                       (combine (seq 0 (length (Trax.sublayers l2)))
                                (Trax.sublayers l2)))) ++
          (Trax.printed ("Detail of LSTM models:" ++ Trax.nl) ::
           Trax.total_line (length (Trax.sublayers l1)) ::
           concat (map (Trax.layer_entry h "Serial.sublayers")
                       (combine (seq 0 (length (Trax.sublayers l1)))
                                (Trax.sublayers l1)))) |}).
Proof.
  intros A h out LSTM Siamese l1 l2 H1 H2.
  unfold Trax.show_cell, Trax.io_bind. unfold Trax.print at 1.
  cbn [Trax.objects Trax.stdout].
  rewrite (@show_layers_run A h _ Siamese l2 "Parallel.sublayers" H2).
  unfold Trax.print at 1. cbn [Trax.objects Trax.stdout].
  rewrite (@show_layers_run A h _ LSTM l1 "Serial.sublayers" H1).
  f_equal. f_equal.
  repeat rewrite <- app_assoc. cbn [app]. reflexivity.
Qed.

Lemma show_cell_output_witness :
  let h : Trax.heap R := snd (Trax.build []) in
  nth_error h 4 = Some (Trax.Serial [0; 1; 2; 3]) /\
  nth_error h 5 = Some (Trax.Parallel [4; 4]) /\
  length (Trax.stdout
            (snd (Trax.show_cell 4 5 {| Trax.objects := h; Trax.stdout := [] |}))) = 16.
Proof.
  intros h. split; [reflexivity|]. split; [reflexivity|].
  rewrite (@show_cell_output R h [] 4%nat 5%nat
             (Trax.Serial [0; 1; 2; 3]) (Trax.Parallel [4; 4]) eq_refl eq_refl).
  reflexivity.
Defined.
